(** * weather-app: the forecast aggregator and the location resolver

    A shallow embedding of the two Vue components of the application:

    - [TheWeather.vue]  (forecast aggregator): [processWeatherData],
      [fetchWeatherForecast], [cleanupCache] and the computed properties;
    - the map component (location resolver): [getCityName], [onViewClick]
      and the watcher on the coordinate fields.

    Reactive [ref]s become fields of an explicit state record, the two
    [await] points of [fetchWeatherForecast] split it into a synchronous
    prefix and a continuation, and everything the browser supplies (the
    clock, the time zone, [Intl.DisplayNames], the outcome of [fetch])
    is an explicit input. *)

From Stdlib Require Import ZArith QArith List String Ascii Bool Lia.
From Stdlib Require Import Permutation Sorted DecimalString.
Import ListNotations.

Open Scope string_scope.
Open Scope list_scope.
Open Scope Z_scope.

Set Default Proof Using "Type".

(* ================================================================== *)
(** * JavaScript values used by the components *)
(* ================================================================== *)

(** A thrown JavaScript value, as seen by
    [err instanceof Error ? err.message : ...]. *)
Inductive JsThrown : Type :=
| ThrownError (message : string)
| ThrownOther.

(** Truthiness of a string: only the empty string is falsy. *)
Definition truthy (s : string) : bool := negb (String.eqb s "").

(** [a || b] on two possibly-undefined strings. *)
Definition js_or (a b : option string) : option string :=
  match a with
  | Some s => if truthy s then Some s else b
  | None => b
  end.

(** [a ?? d] on a possibly-undefined string. *)
Definition js_nullish (a : option string) (d : string) : string :=
  match a with
  | Some s => s
  | None => d
  end.

(** [Array.prototype.includes] on numbers; [None] is NaN, which none of the
    arrays of this program contains. *)
Definition includes (l : list Z) (x : option Z) : bool :=
  match x with
  | Some v => existsb (Z.eqb v) l
  | None => false
  end.

(* ------------------------------------------------------------------ *)
(** ** Date objects (ECMA-262, 21.4.1) *)
(* ------------------------------------------------------------------ *)

Module JsDate.

Definition msPerDay : Z := 86400000.
Definition msPerHour : Z := 3600000.
Definition maxTime : Z := 8640000000000000.

(** A Date holds a time value in milliseconds, or NaN ([None]). *)
Definition t : Type := option Z.

Definition TimeClip (tv : Z) : t :=
  if Z.abs tv <=? maxTime then Some tv else None.

(** [new Date(ms)] *)
Definition make (ms : Z) : t := TimeClip ms.

Definition Day (tv : Z) : Z := tv / msPerDay.
Definition HourFromTime (tv : Z) : Z := (tv / msPerHour) mod 24.
Definition WeekDay (tv : Z) : Z := (Day tv + 4) mod 7.

(** Year, month (1..12) and day of month of a day number. *)
Definition civil (z : Z) : Z * Z * Z :=
  let z := z + 719468 in
  let era := z / 146097 in
  let doe := z - era * 146097 in
  let yoe := (doe - doe / 1460 + doe / 36524 - doe / 146096) / 365 in
  let doy := doe - (365 * yoe + yoe / 4 - yoe / 100) in
  let mp := (5 * doy + 2) / 153 in
  let d := doy - (153 * mp + 2) / 5 + 1 in
  let m := if mp <? 10 then mp + 3 else mp - 9 in
  let y := yoe + era * 400 in
  (if m <=? 2 then y + 1 else y, m, d).

Definition dayNames : list string :=
  ["Sun"; "Mon"; "Tue"; "Wed"; "Thu"; "Fri"; "Sat"].
Definition monthNames : list string :=
  ["Jan"; "Feb"; "Mar"; "Apr"; "May"; "Jun";
   "Jul"; "Aug"; "Sep"; "Oct"; "Nov"; "Dec"].

Definition decimal (n : Z) : string :=
  NilZero.string_of_uint (N.to_uint (Z.to_N n)).

Fixpoint zeros (n : nat) : string :=
  match n with
  | O => ""
  | S k => String "0" (zeros k)
  end.

(** [ToZeroPaddedDecimalString(n, width)] *)
Definition padded (n : Z) (width : nat) : string :=
  let s := decimal n in
  (zeros (width - String.length s) ++ s)%string.

(** [DateString(tv)]: "Www Mmm DD YYYY" for a local time value. *)
Definition DateString (tv : Z) : string :=
  let '(y, m, d) := civil (Day tv) in
  (nth (Z.to_nat (WeekDay tv)) dayNames "" ++ " " ++
   nth (Z.to_nat (m - 1)) monthNames "" ++ " " ++
   padded d 2 ++ " " ++
   (if (y <? 0)%Z then "-" else "") ++ padded (Z.abs y) 4)%string.

Section Local.

(** [LocalTZA(t, true)]: the offset of the local time zone at UTC time
    [t], in milliseconds. *)
Variable localTZA : Z -> Z.

Definition LocalTime (tv : Z) : Z := tv + localTZA tv.

Definition toDateString (d : t) : string :=
  match d with
  | None => "Invalid Date"
  | Some tv => DateString (LocalTime tv)
  end.

End Local.

Definition getUTCHours (d : t) : option Z :=
  match d with
  | None => None
  | Some tv => Some (HourFromTime tv)
  end.

End JsDate.

(* ------------------------------------------------------------------ *)
(** ** Plain objects and Maps, in insertion order *)
(* ------------------------------------------------------------------ *)

(** Both a [Record<string, T>] with non-numeric keys and a
    [Map<string, T>] enumerate their entries in insertion order, and
    assigning to an existing key keeps its position. *)
Module Dict.

Section Dict.

Context {V : Type}.

Definition t : Type := list (string * V).

(** [m[k]] and [m.get(k)]; [None] is [undefined]. *)
Fixpoint get (k : string) (m : t) : option V :=
  match m with
  | [] => None
  | (k', v) :: rest => if String.eqb k' k then Some v else get k rest
  end.

(** [m[k] = v] and [m.set(k, v)] *)
Fixpoint set (k : string) (v : V) (m : t) : t :=
  match m with
  | [] => [(k, v)]
  | (k', v') :: rest =>
      if String.eqb k' k then (k, v) :: rest else (k', v') :: set k v rest
  end.

Definition keys (m : t) : list string := map fst m.

(** [m.size] *)
Definition size (m : t) : Z := Z.of_nat (List.length m).

(** [new Map(entries)] *)
Definition of_entries (entries : list (string * V)) : t :=
  fold_left (fun m kv => set (fst kv) (snd kv) m) entries [].

End Dict.

Arguments t : clear implicits.

End Dict.


(* ================================================================== *)
(** * The location resolver (the map component) *)
(* ================================================================== *)

(** The [components] object of a geocoding result. *)
Record Components : Type := mkComponents {
  _normalized_city : option string;
  city : option string
}.

Record GeoResult : Type := mkGeoResult {
  components : option Components
}.

(** The parsed body of a geocoding response. *)
Inductive GeoBody : Type :=
| GNull
| GObject (results : option (list GeoResult)).

(** How [fetch] and [response.json()] settle in [getCityName]. *)
Inductive GeoOutcome : Type :=
| GeoRejected (reason : JsThrown)
| GeoJsonRejected (reason : JsThrown)
| GeoResolved (body : GeoBody).

(** [data.results?.[0]?.components || {}] (line 123); [None] when reading
    [results] off [null] throws. *)
Definition componentsOf (body : GeoBody) : option Components :=
  match body with
  | GNull => None
  | GObject None => Some (mkComponents None None)
  | GObject (Some []) => Some (mkComponents None None)
  | GObject (Some (first :: _)) =>
      match components first with
      | Some c => Some c
      | None => Some (mkComponents None None)
      end
  end.

(** [(components._normalized_city || components.city) ?? 'n.V.'] *)
Definition localityOf (c : Components) : string :=
  js_nullish (js_or (_normalized_city c) (city c)) "n.V.".

(** [getCityName]; [lat] and [lon] only go into the request. *)
Definition getCityName (lat lon : string) (outcome : GeoOutcome) : string :=
  match outcome with
  | GeoRejected _ => "error fetching city name"
  | GeoJsonRejected _ => "error fetching city name"
  | GeoResolved body =>
      match componentsOf body with
      | Some c => localityOf c
      | None => "error fetching city name"
      end
  end.

Record SpatialReference : Type := mkSpatialReference {
  isWebMercator : bool;
  wkid : Z
}.

(** [event.detail.mapPoint]; a coordinate may be missing. *)
Record MapPoint : Type := mkMapPoint {
  latitude : option Q;
  longitude : option Q;
  spatialReference : SpatialReference
}.

Record ViewClickEvent : Type := mkViewClickEvent {
  mapPoint : option MapPoint
}.

(** The reactive data of the map component, and what it wrote to
    [console.warn]. *)
Record Resolver : Type := mkResolver {
  locationLatitude : option string;
  locationLongitude : option string;
  cityName : option string;
  warnings : list SpatialReference
}.

(** [!x] on a coordinate: missing or zero. *)
Definition noCoordinate (x : option Q) : bool :=
  match x with
  | Some q => Qeq_bool q 0
  | None => true
  end.

Section Resolver.

(** [Number.prototype.toFixed(3)] and the message of the TypeError
    raised by destructuring [undefined]. *)
Variable toFixed3 : Q -> string.
Variable destructureMessage : string.

(** The handler of [arcgisViewClick] (lines 140-158): the state after the
    call and the exception it raised if any. *)
Definition onViewClick (event : ViewClickEvent) (st : Resolver)
    : Resolver * option JsThrown :=
  match mapPoint event with
  | None => (st, Some (ThrownError destructureMessage))
  | Some point =>
      if negb (isWebMercator (spatialReference point)) then
        (mkResolver (locationLatitude st) (locationLongitude st)
                    (cityName st)
                    (warnings st ++ [spatialReference point]), None)
      else
        match latitude point, longitude point with
        | Some lat, Some lon =>
            if noCoordinate (Some lat) || noCoordinate (Some lon) then
              (mkResolver (Some "n.V.") (Some "n.V.") (cityName st)
                          (warnings st), None)
            else
              (mkResolver (Some (toFixed3 lat)) (Some (toFixed3 lon))
                          (cityName st) (warnings st), None)
        | _, _ =>
            (mkResolver (Some "n.V.") (Some "n.V.") (cityName st)
                        (warnings st), None)
        end
  end.

(** The callback of the watcher on the two coordinate fields
    (lines 18-24), once the geocoding request settled. *)
Definition coordinatesChanged (outcome : GeoOutcome) (st : Resolver)
    : Resolver :=
  let resolved :=
    match locationLatitude st, locationLongitude st with
    | Some lat, Some lon =>
        if truthy lat && truthy lon
        then Some (getCityName lat lon outcome)
        else None
    | _, _ => None
    end in
  mkResolver (locationLatitude st) (locationLongitude st) resolved
             (warnings st).

Definition sameField (a b : option string) : bool :=
  match a, b with
  | Some x, Some y => String.eqb x y
  | None, None => true
  | _, _ => false
  end.

(** A click followed by the watcher, which runs only when one of the
    watched fields changed. *)
Definition click (event : ViewClickEvent) (outcome : GeoOutcome)
    (st : Resolver) : Resolver :=
  let st' := fst (onViewClick event st) in
  if sameField (locationLatitude st) (locationLatitude st')
     && sameField (locationLongitude st) (locationLongitude st')
  then st'
  else coordinatesChanged outcome st'.

End Resolver.

(* ================================================================== *)
(** * The forecast aggregator ([TheWeather.vue]) *)
(* ================================================================== *)

(** ** Types *)

Record WeatherCondition : Type := mkWeatherCondition {
  w_main : string;
  w_description : string;
  w_icon : string
}.

(** [interface WeatherEntry]; [dt] is in Unix seconds. *)
Record WeatherEntry : Type := mkWeatherEntry {
  dt : Z;
  dt_txt : string;
  main_temp : Q;
  main_humidity : Q;
  weather : list WeatherCondition;
  wind_speed : option Q;
  pop : option Q
}.

(** [interface DailyWeather] *)
Record DailyWeather : Type := mkDailyWeather {
  date : string;
  weatherEntries : list WeatherEntry
}.

(** [interface LocationInfo] *)
Record LocationInfo : Type := mkLocationInfo {
  name : string;
  country : string
}.

(** The [city] object of a forecast response. *)
Record City : Type := mkCity {
  city_name : string;
  city_country : string
}.

(** The value of the [message] field of a response, as
    [data.message || ...] and [new Error(...)] use it: a string; a number
    that is an integer (below 10^21 in absolute value, where [String]
    prints all digits); or any other value ([null], a boolean, another
    number, an array, an object), given by its truthiness and by what
    [String] makes of it. *)
Inductive JsonValue : Type :=
| JString (s : string)
| JInteger (n : Z)
| JOther (isTruthy : bool) (text : string).

(** [!!value] *)
Definition valueTruthy (value : JsonValue) : bool :=
  match value with
  | JString s => truthy s
  | JInteger n => negb (n =? 0)
  | JOther isTruthy _ => isTruthy
  end.

(** [String(value)], which [new Error(value)] stores as the message. *)
Definition valueToString (value : JsonValue) : string :=
  match value with
  | JString s => s
  | JInteger n =>
      ((if (n <? 0)%Z then "-" else "") ++ JsDate.decimal (Z.abs n))%string
  | JOther _ text => text
  end.

(** The parsed body of a forecast response ([data: any]).  [p_message] is
    [None] when the field is absent; a body that is not an object behaves
    like an object without fields, except for [null]. *)
Record PayloadObject : Type := mkPayload {
  p_message : option JsonValue;
  p_list : option (list WeatherEntry);
  p_city : option City
}.

Inductive Payload : Type :=
| JNull
| JObject (o : PayloadObject).

(** A value of [weatherCache]. *)
Record Cached : Type := mkCached {
  timestamp : Z;
  data : Payload
}.

(** The reactive data of the component. *)
Record State : Type := mkState {
  locationInfoData : option LocationInfo;
  completeWeatherData : list WeatherEntry;
  dailyWeatherData : list DailyWeather;
  isLoading : bool;
  error : option string;
  lastFetchedCity : option string;
  weatherCache : Dict.t Cached
}.

(** The component right after setup. *)
Definition initialState : State :=
  mkState None [] [] false None None [].

Definition targetHours : list Z := [6; 12; 18; 21].

Definition CACHE_DURATION : Z := 10 * 60 * 1000.

Definition resetData (st : State) : State :=
  mkState None [] [] (isLoading st) (error st) (lastFetchedCity st)
          (weatherCache st).

(** What [Intl.DisplayNames.prototype.of] does with a region code. *)
Inductive DisplayName : Type :=
| OfRangeError (message : string)
| OfUndefined
| OfName (s : string).

(** The UTC hour of day of the instant an entry is stamped with. *)
Definition utcHour (entry : WeatherEntry) : Z := (dt entry / 3600) mod 24.

(** What the browser contributes: the offset of its time zone at a UTC
    time, in milliseconds; its region names; and the message of the
    TypeError it raises for a property read on [null]. *)
Record Browser : Type := mkBrowser {
  LocalTZA : Z -> Z;
  regionName : string -> DisplayName;
  nullReadMessage : string
}.

Section Aggregator.

Variable browser : Browser.

(** ** [processWeatherData] *)

(** The callback of [data.list.reduce] (lines 135-142).  A date string
    ("Www Mmm DD YYYY" or "Invalid Date") is never the name of a property
    that [{}] inherits, so [groups[dateString]] is a lookup among the keys
    set so far. *)
Definition groupEntry (groups : Dict.t (list WeatherEntry))
    (entry : WeatherEntry) : Dict.t (list WeatherEntry) :=
  let date := JsDate.make (dt entry * 1000) in
  let dateString := JsDate.toDateString (LocalTZA browser) date in
  let groups :=
    match Dict.get dateString groups with
    | None => Dict.set dateString [] groups
    | Some _ => groups
    end in
  if includes targetHours (JsDate.getUTCHours date) then
    match Dict.get dateString groups with
    | Some day => Dict.set dateString (day ++ [entry]) groups
    | None => groups
    end
  else groups.

Definition preparedData (entries : list WeatherEntry)
    : Dict.t (list WeatherEntry) :=
  fold_left groupEntry entries [].

(** [Object.entries(preparedData).map(...)] (lines 146-149). *)
Definition dailyBuckets (entries : list WeatherEntry) : list DailyWeather :=
  map (fun kv => mkDailyWeather (fst kv) (snd kv)) (preparedData entries).

(** The [country] of [locationInfoData] (lines 153-154); the call to [of]
    may throw. *)
Definition countryDisplayName (code : string) : string + JsThrown :=
  match regionName browser code with
  | OfRangeError m => inr (ThrownError m)
  | OfUndefined => inl code
  | OfName s => inl (if truthy s then s else code)
  end.

(** The state after the call, and the exception it raised if any. *)
Definition processWeatherData (data : Payload) (st : State)
    : State * option JsThrown :=
  match data with
  | JObject (mkPayload _ (Some entries) (Some city)) =>
      let st1 :=
        mkState (locationInfoData st) entries (dailyBuckets entries)
                (isLoading st) (error st) (lastFetchedCity st)
                (weatherCache st) in
      match countryDisplayName (city_country city) with
      | inl display =>
          (mkState (Some (mkLocationInfo (city_name city) display))
                   (completeWeatherData st1) (dailyWeatherData st1)
                   (isLoading st1) (error st1) (lastFetchedCity st1)
                   (weatherCache st1), None)
      | inr thrown => (st1, Some thrown)
      end
  | _ =>
      (resetData
         (mkState (locationInfoData st) (completeWeatherData st)
                  (dailyWeatherData st) (isLoading st)
                  (Some "Ungültige Wetterdaten erhalten")
                  (lastFetchedCity st) (weatherCache st)), None)
  end.

(** Whether [processWeatherData] takes the early return of line 125. *)
Definition validShape (data : Payload) : bool :=
  match data with
  | JObject (mkPayload _ (Some _) (Some _)) => true
  | _ => false
  end.

(** ** Computed properties *)

Definition currentWeather (st : State) : option WeatherEntry :=
  match completeWeatherData st with
  | first :: _ => Some first
  | [] => None
  end.

Definition todayBlocks (st : State) : list WeatherEntry :=
  match dailyWeatherData st with
  | today :: _ => weatherEntries today
  | [] => []
  end.

Definition nextDays (st : State) : list DailyWeather :=
  tl (dailyWeatherData st).

(** ** [fetchWeatherForecast] *)

(** How the two awaited promises of lines 96-97 settle. *)
Inductive FetchOutcome : Type :=
| FetchRejected (reason : JsThrown)
| JsonRejected (ok : bool) (reason : JsThrown)
| Resolved (ok : bool) (body : Payload).

(** The [catch] and the [resetData] of lines 110-113. *)
Definition catchForecastError (err : JsThrown) (st : State) : State :=
  resetData
    (mkState (locationInfoData st) (completeWeatherData st)
             (dailyWeatherData st) (isLoading st)
             (Some match err with
                   | ThrownError m => m
                   | ThrownOther => "Unbekannter Fehler beim Laden der Daten"
                   end)
             (lastFetchedCity st) (weatherCache st)).

(** [new Error(data.message || 'Fehler ...')] at line 100, whose message
    is the string form of its argument; reading [message] off [null]
    throws instead. *)
Definition statusError (body : Payload) : JsThrown :=
  match body with
  | JNull => ThrownError (nullReadMessage browser)
  | JObject o =>
      ThrownError
        match p_message o with
        | Some value =>
            if valueTruthy value then valueToString value
            else "Fehler beim Abrufen der Wetterdaten"
        | None => "Fehler beim Abrufen der Wetterdaten"
        end
  end.

(** The synchronous prefix of the function, up to the first [await]. *)
Inductive Started : Type :=
| Ignored
| Suppressed
| FromCache (st' : State) (thrown : option JsThrown)
| Requested (st' : State).

Definition fetchStart (cityName : string) (now : Z) (st : State) : Started :=
  let request :=
    Requested (mkState (locationInfoData st) (completeWeatherData st)
                       (dailyWeatherData st) true None (Some cityName)
                       (weatherCache st)) in
  if negb (truthy cityName) then Ignored
  else if match lastFetchedCity st with
          | Some last => String.eqb cityName last
          | None => false
          end then Suppressed
  else
    match Dict.get cityName (weatherCache st) with
    | Some cachedData =>
        if now - timestamp cachedData <? CACHE_DURATION then
          let (st', thrown) := processWeatherData (data cachedData) st in
          FromCache st' thrown
        else request
    | None => request
    end.

(** The continuation after the response settled; [now] is the reading of
    [Date.now()] at line 105. *)
Definition fetchSettle (cityName : string) (outcome : FetchOutcome) (now : Z)
    (st : State) : State :=
  let st' :=
    match outcome with
    | FetchRejected err => catchForecastError err st
    | JsonRejected _ err => catchForecastError err st
    | Resolved false body => catchForecastError (statusError body) st
    | Resolved true body =>
        let cached :=
          mkState (locationInfoData st) (completeWeatherData st)
                  (dailyWeatherData st) (isLoading st) (error st)
                  (lastFetchedCity st)
                  (Dict.set cityName (mkCached now body) (weatherCache st)) in
        match processWeatherData body cached with
        | (st2, None) => st2
        | (st2, Some err) => catchForecastError err st2
        end
    end in
  mkState (locationInfoData st') (completeWeatherData st')
          (dailyWeatherData st') false (error st') (lastFetchedCity st')
          (weatherCache st').

(** One call that nothing interrupts: the final state and the cities a
    network request was issued for.  [outcome] and [settled] are
    consulted only when a request is issued.  The source suspends at the
    two [await]s of lines 96-97, where other calls and sweeps can run: a
    call they overlap with is [fetchStart], the steps in between, then
    [fetchSettle] on the state reached by then. *)
Definition fetchWeatherForecast (cityName : string) (now : Z)
    (outcome : FetchOutcome) (settled : Z) (st : State)
    : State * list string :=
  match fetchStart cityName now st with
  | Ignored => (st, [])
  | Suppressed => (st, [])
  | FromCache st' _ => (st', [])
  | Requested st' => (fetchSettle cityName outcome settled st', [cityName])
  end.

(** ** [cleanupCache] *)

(** Where a stable sort with comparator
    [(a, b) => b[1].timestamp - a[1].timestamp] puts [x] when [x] preceded
    all of [sorted] in the array. *)
Fixpoint insertRecent (x : string * Cached) (sorted : list (string * Cached))
    : list (string * Cached) :=
  match sorted with
  | [] => [x]
  | y :: rest =>
      if timestamp (snd y) - timestamp (snd x) >? 0
      then y :: insertRecent x rest
      else x :: y :: rest
  end.

Definition sortRecent (entries : list (string * Cached))
    : list (string * Cached) :=
  fold_right insertRecent [] entries.

Definition cleanupCache (st : State) : State :=
  if Dict.size (weatherCache st) >? 10 then
    let entries := firstn 5 (sortRecent (weatherCache st)) in
    mkState (locationInfoData st) (completeWeatherData st)
            (dailyWeatherData st) (isLoading st) (error st)
            (lastFetchedCity st) (Dict.of_entries entries)
  else st.

(** ** The component as a transition system *)

(** What drives the component: the watcher calling [fetchWeatherForecast]
    with a city name, and the timer calling [cleanupCache]. *)
Inductive Event : Type :=
| Forecast (cityName : string) (now : Z) (outcome : FetchOutcome) (settled : Z)
| Sweep.

Definition step (ev : Event) (st : State) : State * list string :=
  match ev with
  | Forecast cityName now outcome settled =>
      fetchWeatherForecast cityName now outcome settled st
  | Sweep => (cleanupCache st, [])
  end.

Fixpoint run (evs : list Event) (st : State) : State * list string :=
  match evs with
  | [] => (st, [])
  | ev :: rest =>
      let (st1, calls1) := step ev st in
      let (st2, calls2) := run rest st1 in
      (st2, calls1 ++ calls2)
  end.

(** The "Error" state of the display: [v-else-if="error"]. *)
Definition inErrorState (st : State) : bool :=
  match error st with
  | Some message => truthy message
  | None => false
  end.

(** ** Vocabulary of the properties *)

(** The key an entry is grouped under, and whether the reducer keeps it. *)
Definition dateKey (entry : WeatherEntry) : string :=
  JsDate.toDateString (LocalTZA browser) (JsDate.make (dt entry * 1000)).

Definition wanted (entry : WeatherEntry) : bool :=
  includes targetHours (JsDate.getUTCHours (JsDate.make (dt entry * 1000))).

(** The entries a day keeps. *)
Definition keptOn (day : string) (entries : list WeatherEntry)
    : list WeatherEntry :=
  filter (fun e => String.eqb (dateKey e) day && wanted e) entries.

(** The dates of a list in order of first appearance. *)
Definition seeDate (seen : list string) (day : string) : list string :=
  if existsb (String.eqb day) seen then seen else seen ++ [day].

Definition firstSeen (days : list string) : list string :=
  fold_left seeDate days [].

(** [a] was stored at least as recently as [b]. *)
Definition notOlder (a b : string * Cached) : Prop :=
  timestamp (snd b) <= timestamp (snd a).

(** The derived display collections are empty. *)
Definition cleared (st : State) : Prop :=
  locationInfoData st = None
  /\ completeWeatherData st = []
  /\ dailyWeatherData st = [].

(** The three ways a request fails: the network, the status, the shape. *)
Definition failed (outcome : FetchOutcome) : bool :=
  match outcome with
  | FetchRejected _ => true
  | JsonRejected _ _ => true
  | Resolved false _ => true
  | Resolved true body => negb (validShape body)
  end.

(** The message the server sent along, if any, as a string. *)
Definition serverMessage (outcome : FetchOutcome) : option string :=
  match outcome with
  | Resolved _ (JObject o) => option_map valueToString (p_message o)
  | _ => None
  end.

(** The generic messages of the component. *)
Definition genericMessages : list string :=
  ["Fehler beim Abrufen der Wetterdaten";
   "Unbekannter Fehler beim Laden der Daten";
   "Ungültige Wetterdaten erhalten"].

(** The error message as the specification words it: the server's message
    when there is one, a generic message otherwise. *)
Definition messageAsSpecified (outcome : FetchOutcome) (st' : State) : Prop :=
  match serverMessage outcome with
  | Some m => error st' = Some m
  | None =>
      exists generic,
        In generic genericMessages /\ error st' = Some generic
  end.

(** The error message the component shows for a failed request: the
    message of the thrown error; for a bad status the server's message
    as a string, unless it is missing, empty, zero, false or [null]; for
    a bad shape the fixed text. *)
Definition shownMessage (outcome : FetchOutcome) : string :=
  match outcome with
  | FetchRejected (ThrownError m) => m
  | JsonRejected _ (ThrownError m) => m
  | FetchRejected ThrownOther => "Unbekannter Fehler beim Laden der Daten"
  | JsonRejected _ ThrownOther => "Unbekannter Fehler beim Laden der Daten"
  | Resolved false JNull => nullReadMessage browser
  | Resolved false (JObject (mkPayload (Some (JString s)) _ _)) =>
      if String.eqb s "" then "Fehler beim Abrufen der Wetterdaten" else s
  | Resolved false (JObject (mkPayload (Some (JInteger n)) _ _)) =>
      if n =? 0 then "Fehler beim Abrufen der Wetterdaten"
      else valueToString (JInteger n)
  | Resolved false (JObject (mkPayload (Some (JOther isTruthy text)) _ _)) =>
      if isTruthy then text else "Fehler beim Abrufen der Wetterdaten"
  | Resolved false (JObject (mkPayload None _ _)) =>
      "Fehler beim Abrufen der Wetterdaten"
  | Resolved true _ => "Ungültige Wetterdaten erhalten"
  end.

(** The guard of line 76. *)
Definition isLast (cityName : string) (st : State) : bool :=
  match lastFetchedCity st with
  | Some last => String.eqb cityName last
  | None => false
  end.

(** The request as the specification words the time-to-live rule, for a
    payload stored at [stored]: no network call before ten minutes have
    passed, one after. *)
Definition ttlAsSpecified (cityName : string) (stored now : Z)
    (outcome : FetchOutcome) (settled : Z) (st : State) : Prop :=
  (now - stored < CACHE_DURATION ->
   snd (fetchWeatherForecast cityName now outcome settled st) = [])
  /\ (CACHE_DURATION < now - stored ->
      snd (fetchWeatherForecast cityName now outcome settled st) = [cityName]).

(** Two calls in a row as the specification words them: the second one
    issues no request. *)
Definition repeatAsSpecified (cityName : string) (now1 : Z)
    (outcome1 : FetchOutcome) (settled1 : Z) (now2 : Z)
    (outcome2 : FetchOutcome) (settled2 : Z) (st : State) : Prop :=
  let first := fetchWeatherForecast cityName now1 outcome1 settled1 st in
  let second :=
    fetchWeatherForecast cityName now2 outcome2 settled2 (fst first) in
  (List.length (snd first ++ snd second) <= 1)%nat /\ snd second = [].

(** A later request as the specification words it for a cached payload of
    the wrong shape: the payload is processed again, into the Error
    state. *)
Definition reprocessedAsSpecified (cityName : string) (now : Z)
    (st : State) : Prop :=
  exists st', fetchStart cityName now st = FromCache st' None
              /\ inErrorState st' = true.

End Aggregator.

(** The cache has distinct keys and every bucket on display holds
    entries of the target hours only. *)
Definition wellFormed (st : State) : Prop :=
  NoDup (Dict.keys (weatherCache st))
  /\ forall bucket entry,
       In bucket (dailyWeatherData st) ->
       In entry (weatherEntries bucket) ->
       In (utcHour entry) targetHours.

(** The resolved name as the specification words it: the normalized city
    name when present, else the city field when present, else "n.V.". *)
Definition localityAsSpecified (c : Components) : string :=
  match _normalized_city c with
  | Some normalized => normalized
  | None =>
      match city c with
      | Some generic => generic
      | None => "n.V."
      end
  end.

(** The normalized city name is missing or empty. *)
Definition noNormalizedCity (c : Components) : Prop :=
  _normalized_city c = None \/ _normalized_city c = Some "".

(** ** Sample data *)

(** A browser in UTC that knows Germany by name, answers any other
    two-letter code with the code itself and rejects everything else. *)
Definition utcZone (tv : Z) : Z := 0.

Definition germanRegions (code : string) : DisplayName :=
  if String.eqb code "DE" then OfName "Deutschland"
  else if Nat.eqb (String.length code) 2 then OfName code
  else OfRangeError "Invalid argument".

Definition v8NullRead : string :=
  "Cannot read properties of null (reading 'message')".

Definition sampleBrowser : Browser :=
  mkBrowser utcZone germanRegions v8NullRead.

(** A forecast entry stamped [seconds] after the epoch. *)
Definition entryAt (seconds : Z) : WeatherEntry :=
  mkWeatherEntry seconds "" 0 0 [mkWeatherCondition "Clouds" "Wolken" "04d"]
                 None None.

(** Eight entries three hours apart from 2024-03-01 03:00 UTC on: the
    hours 3, 6, ..., 21 of the first of March and midnight of the
    second. *)
Definition marchEntries : list WeatherEntry :=
  map (fun i => entryAt (1709262000 + 10800 * i)) [0; 1; 2; 3; 4; 5; 6; 7].

Definition berlin : City := mkCity "Berlin" "DE".

Definition marchPayload : PayloadObject :=
  mkPayload None (Some marchEntries) (Some berlin).

Definition processMarch : State :=
  fst (processWeatherData sampleBrowser (JObject marchPayload) initialState).

(** A successful response for Berlin, requested at 0 and stored at 1000,
    and the component after it; then the same for Hamburg, requested at
    2000 and stored at 3000. *)
Definition marchResponse : FetchOutcome := Resolved true (JObject marchPayload).

Definition berlinFetched : State :=
  fst (fetchWeatherForecast sampleBrowser "Berlin" 0 marchResponse 1000
                            initialState).

Definition hamburgFetched : State :=
  fst (run sampleBrowser
           [Forecast "Berlin" 0 marchResponse 1000;
            Forecast "Hamburg" 2000 marchResponse 3000]
           initialState).

(** The component while a request for Berlin is in flight. *)
Definition requesting : State :=
  mkState None [] [] true None (Some "Berlin") [].

(** Ways for a request to fail: no network, an unknown city, and a
    success status on a body without a list. *)
Definition offline : FetchOutcome :=
  FetchRejected (ThrownError "Failed to fetch").

Definition cityNotFound : FetchOutcome :=
  Resolved false
    (JObject (mkPayload (Some (JString "city not found")) None None)).

(** A bad status whose body carries a number for a message. *)
Definition statusNumber : FetchOutcome :=
  Resolved false (JObject (mkPayload (Some (JInteger 404)) None None)).

Definition shapeless : Payload := JObject (mkPayload None None None).

Definition quotaNotice : FetchOutcome :=
  Resolved true
    (JObject (mkPayload (Some (JString "quota exceeded")) None None)).

Definition shapelessFetched : State :=
  fst (fetchWeatherForecast sampleBrowser "Berlin" 0 (Resolved true shapeless)
                            1000 initialState).

(** A cache of eleven cities. *)
Definition elevenCities : Dict.t Cached :=
  map (fun kv => (fst kv, mkCached (snd kv) shapeless))
      [("Aachen", 5000); ("Bonn", 3000); ("Celle", 9000); ("Dessau", 1000);
       ("Essen", 11000); ("Fulda", 7000); ("Gera", 2000); ("Hamm", 10000);
       ("Ilmenau", 4000); ("Jena", 8000); ("Kiel", 6000)].

Definition crowded : State :=
  mkState None [] [] false None (Some "Kiel") elevenCities.

(** Geocoding answers: a result whose normalized city name is the empty
    string, and a result without components. *)
Definition emptyNormalized : Components :=
  mkComponents (Some "") (Some "Berlin").

Definition oceanBody : GeoBody :=
  GObject (Some [mkGeoResult (Some (mkComponents None None))]).

(** Two results, of which only the first counts; a result with a city
    field only; and a response without a result. *)
Definition twoResults : GeoBody :=
  GObject
    (Some [mkGeoResult (Some (mkComponents (Some "Berlin") (Some "Mitte")));
           mkGeoResult (Some (mkComponents (Some "Hamburg") None))]).

Definition cityOnly : GeoBody :=
  GObject (Some [mkGeoResult (Some (mkComponents None (Some "Potsdam")))]).

Definition noResult : GeoBody := GObject (Some []).

(** [toFixed(3)] on an exact decimal: round half away from zero. *)
Definition toFixed3 (q : Q) : string :=
  let thousandths := (Z.abs (Qnum q) * 2000 + Zpos (Qden q))
                     / (2 * Zpos (Qden q)) in
  ((if (Qnum q <? 0)%Z then "-" else "")
   ++ JsDate.decimal (thousandths / 1000) ++ "."
   ++ JsDate.padded (thousandths mod 1000) 3)%string.

Definition v8Destructure : string :=
  "Cannot destructure property 'latitude' of 'mapPoint' as it is undefined.".

(** A point in UTM 32N and the map component showing Munich. *)
Definition utmPoint : MapPoint :=
  mkMapPoint (Some (5252 # 100)%Q) (Some (13405 # 1000)%Q)
             (mkSpatialReference false 25832).

Definition munich : Resolver :=
  mkResolver (Some "48.137") (Some "11.575") (Some "München") [].

(** An entry stamped beyond the last instant a Date can hold. *)
Definition strayEntry : WeatherEntry := entryAt 8640000000001.

(** The two requests behind [hamburgFetched]. *)
Definition twoRequests : list Event :=
  [Forecast "Berlin" 0 marchResponse 1000;
   Forecast "Hamburg" 2000 marchResponse 3000].

(** The component when the response for Berlin arrives after a request
    for Hamburg was started in the meantime: Hamburg is the last fetched
    city and its request is still in flight. *)
Definition hamburgRequested : State :=
  mkState None [] [] true None (Some "Hamburg") [].

(** After Berlin and Hamburg, a request for Kiel fails without network. *)
Definition kielFailed : State :=
  fst (fetchWeatherForecast sampleBrowser "Kiel" 4000 offline 4500
                            hamburgFetched).

(** A response naming a place without a country code. *)
Definition nullIsland : City := mkCity "Null Island" "".

(** The five entries of [elevenCities] stored last. *)
Definition fiveNewest : list (string * Cached) :=
  map (fun kv => (fst kv, mkCached (snd kv) shapeless))
      [("Essen", 11000); ("Hamm", 10000); ("Celle", 9000); ("Jena", 8000);
       ("Fulda", 7000)].

(** Web Mercator points: one on the equator, one in Berlin. *)
Definition equatorPoint : MapPoint :=
  mkMapPoint (Some 0%Q) (Some (13405 # 1000)%Q)
             (mkSpatialReference true 102100).

Definition berlinPoint : MapPoint :=
  mkMapPoint (Some (5252 # 100)%Q) (Some (13405 # 1000)%Q)
             (mkSpatialReference true 102100).

Definition berlinBody : GeoBody :=
  GObject (Some [mkGeoResult (Some (mkComponents (Some "Berlin") None))]).

(** ** The template and the watcher of [TheWeather.vue] *)

(** What the template renders: the chain of [v-if], [v-else-if] and
    [v-else] of lines 210-316. *)
Inductive View : Type :=
| LoadingView
| ErrorView (message : string)
| ForecastView (location : LocationInfo) (current : option WeatherEntry)
    (today : list WeatherEntry) (next : list DailyWeather)
| EmptyView.

Definition view (st : State) : View :=
  let data :=
    match completeWeatherData st, locationInfoData st with
    | _ :: _, Some location =>
        ForecastView location (currentWeather st) (todayBlocks st)
                     (nextDays st)
    | _, _ => EmptyView
    end in
  if isLoading st then LoadingView
  else
    match error st with
    | Some message => if truthy message then ErrorView message else data
    | None => data
    end.

(** The [watchEffect] of lines 175-179, run for a value of the
    [cityName] prop. *)
Definition watchEffect (browser : Browser) (cityName : option string)
    (now : Z) (outcome : FetchOutcome) (settled : Z) (st : State)
    : State * list string :=
  match cityName with
  | Some name =>
      if truthy name
      then fetchWeatherForecast browser name now outcome settled st
      else (st, [])
  | None => (st, [])
  end.

(** ** Vocabulary of the further properties *)

(** A log of network requests in which no city follows itself, the first
    one being another city than [previous]. *)
Fixpoint noRepeat (previous : option string) (log : list string) : Prop :=
  match log with
  | [] => True
  | name :: rest => previous <> Some name /\ noRepeat (Some name) rest
  end.

(** The last city of a log, [previous] when the log is empty. *)
Definition lastOf (previous : option string) (log : list string)
    : option string :=
  fold_left (fun _ name => Some name) log previous.

(** No fresh payload is cached for the city at [now]. *)
Definition noFreshPayload (cityName : string) (now : Z) (st : State) : Prop :=
  forall cached,
    Dict.get cityName (weatherCache st) = Some cached ->
    CACHE_DURATION <= now - timestamp cached.

(* ================================================================== *)
(** * Properties of the forecast aggregator *)
(* ================================================================== *)

(** ** Dictionaries *)

Lemma dict_get_set_same {V : Type} (k : string) (v : V) (m : Dict.t V) :
  Dict.get k (Dict.set k v m) = Some v.
Proof.
  induction m as [|[k' v'] m IH]; simpl.
  - now rewrite String.eqb_refl.
  - destruct (String.eqb k' k) eqn:E; simpl.
    + now rewrite String.eqb_refl.
    + now rewrite E.
Qed.

Lemma dict_get_set_other {V : Type} (k k0 : string) (v : V) (m : Dict.t V) :
  k0 <> k -> Dict.get k (Dict.set k0 v m) = Dict.get k m.
Proof.
  intros Hne. induction m as [|[k' v'] m IH]; simpl.
  - apply String.eqb_neq in Hne. now rewrite Hne.
  - destruct (String.eqb k' k0) eqn:E; simpl.
    + apply String.eqb_eq in E. subst k'.
      apply String.eqb_neq in Hne. now rewrite Hne.
    + now rewrite IH.
Qed.

Lemma dict_get_None {V : Type} (k : string) (m : Dict.t V) :
  Dict.get k m = None <-> ~ In k (Dict.keys m).
Proof.
  induction m as [|[k' v'] m IH]; simpl.
  - tauto.
  - destruct (String.eqb k' k) eqn:E.
    + apply String.eqb_eq in E. split; [discriminate | tauto].
    + apply String.eqb_neq in E. rewrite IH. tauto.
Qed.

Lemma dict_get_In {V : Type} (k : string) (v : V) (m : Dict.t V) :
  Dict.get k m = Some v -> In (k, v) m.
Proof.
  induction m as [|[k' v'] m IH]; simpl; [discriminate|].
  destruct (String.eqb k' k) eqn:E.
  - apply String.eqb_eq in E. intros [= ->]. left. now subst.
  - auto.
Qed.

Lemma dict_In_get {V : Type} (k : string) (v : V) (m : Dict.t V) :
  NoDup (Dict.keys m) -> In (k, v) m -> Dict.get k m = Some v.
Proof.
  induction m as [|[k' v'] m IH]; simpl; [tauto|].
  intros Hnd [Heq | Hin].
  - injection Heq as -> ->. now rewrite String.eqb_refl.
  - inversion Hnd as [|? ? Hnotin Hnd']; subst.
    destruct (String.eqb k' k) eqn:E.
    + apply String.eqb_eq in E. subst k'. exfalso. apply Hnotin.
      change (In (fst (k, v)) (map fst m)). now apply in_map.
    + now apply IH.
Qed.

Lemma dict_keys_set_present {V : Type} (k : string) (v : V) (m : Dict.t V) :
  In k (Dict.keys m) -> Dict.keys (Dict.set k v m) = Dict.keys m.
Proof.
  induction m as [|[k' v'] m IH]; simpl; [tauto|].
  intros Hin. destruct (String.eqb k' k) eqn:E; simpl.
  - apply String.eqb_eq in E. now subst.
  - apply String.eqb_neq in E. f_equal. apply IH. tauto.
Qed.

Lemma dict_keys_set_absent {V : Type} (k : string) (v : V) (m : Dict.t V) :
  ~ In k (Dict.keys m) -> Dict.keys (Dict.set k v m) = Dict.keys m ++ [k].
Proof.
  induction m as [|[k' v'] m IH]; simpl; [reflexivity|].
  intros Hin. destruct (String.eqb k' k) eqn:E; simpl.
  - apply String.eqb_eq in E. tauto.
  - f_equal. apply IH. tauto.
Qed.

Lemma dict_set_absent {V : Type} (k : string) (v : V) (m : Dict.t V) :
  ~ In k (Dict.keys m) -> Dict.set k v m = m ++ [(k, v)].
Proof.
  induction m as [|[k' v'] m IH]; simpl; [reflexivity|].
  intros Hin. destruct (String.eqb k' k) eqn:E; simpl.
  - apply String.eqb_eq in E. tauto.
  - f_equal. apply IH. tauto.
Qed.

(** [new Map(entries)] of entries with distinct keys holds exactly these
    entries, in the same order. *)
Lemma dict_of_entries_nodup {V : Type} (entries : list (string * V)) :
  NoDup (map fst entries) -> Dict.of_entries entries = entries.
Proof.
  unfold Dict.of_entries.
  assert (H : forall (acc : Dict.t V),
             NoDup (map fst (acc ++ entries)) ->
             fold_left (fun m kv => Dict.set (fst kv) (snd kv) m) entries acc
             = acc ++ entries).
  { induction entries as [|[k v] entries IH]; intros acc Hnd; simpl.
    - now rewrite app_nil_r.
    - rewrite dict_set_absent.
      + rewrite IH; rewrite <- app_assoc; [reflexivity | exact Hnd].
      + rewrite map_app in Hnd. simpl in Hnd.
        apply NoDup_remove_2 in Hnd. intros Hin. apply Hnd.
        apply in_or_app. now left. }
  intros Hnd. now apply (H []).
Qed.

(** ** Grouping by day *)

Lemma wanted_utcHour (entry : WeatherEntry) :
  wanted entry = true -> In (utcHour entry) targetHours.
Proof.
  unfold wanted, JsDate.make, JsDate.TimeClip, utcHour.
  destruct (Z.abs (dt entry * 1000) <=? JsDate.maxTime); simpl;
    [|discriminate].
  unfold JsDate.HourFromTime, JsDate.msPerHour.
  replace 3600000 with (3600 * 1000) by reflexivity.
  rewrite Z.div_mul_cancel_r by lia.
  set (h := (dt entry / 3600) mod 24).
  rewrite !orb_true_iff, !Z.eqb_eq.
  intros [H|[H|[H|[H|H]]]]; try discriminate; rewrite H; tauto.
Qed.

Lemma existsb_eqb_In (k : string) (l : list string) :
  existsb (String.eqb k) l = true <-> In k l.
Proof.
  rewrite existsb_exists. split.
  - intros [x [Hin E]]. apply String.eqb_eq in E. now subst.
  - intros Hin. exists k. split; [exact Hin | apply String.eqb_refl].
Qed.

Lemma groupEntry_keys (browser : Browser) (groups : Dict.t (list WeatherEntry))
    (entry : WeatherEntry) :
  Dict.keys (groupEntry browser groups entry)
  = seeDate (Dict.keys groups) (dateKey browser entry).
Proof.
  unfold groupEntry, seeDate. fold (dateKey browser entry). fold (wanted entry).
  destruct (Dict.get (dateKey browser entry) groups) as [day|] eqn:G.
  - assert (Hin : In (dateKey browser entry) (Dict.keys groups)).
    { destruct (in_dec string_dec (dateKey browser entry) (Dict.keys groups))
        as [Hin|Hout]; [exact Hin|].
      apply dict_get_None in Hout. congruence. }
    apply existsb_eqb_In in Hin as Hex. rewrite Hex.
    destruct (wanted entry); [|reflexivity].
    rewrite G. now apply dict_keys_set_present.
  - apply dict_get_None in G as Hout.
    destruct (existsb (String.eqb (dateKey browser entry)) (Dict.keys groups))
      eqn:Hex.
    { apply existsb_eqb_In in Hex. tauto. }
    rewrite dict_get_set_same.
    destruct (wanted entry).
    + rewrite dict_keys_set_present; [now apply dict_keys_set_absent|].
      rewrite dict_keys_set_absent by exact Hout.
      apply in_or_app. right. now left.
    + now apply dict_keys_set_absent.
Qed.

Lemma groupEntry_get (browser : Browser) (groups : Dict.t (list WeatherEntry))
    (entry : WeatherEntry) (day : string) :
  Dict.get day (groupEntry browser groups entry)
  = if String.eqb (dateKey browser entry) day
    then Some (match Dict.get day groups with
               | Some es => es
               | None => []
               end ++ if wanted entry then [entry] else [])
    else Dict.get day groups.
Proof.
  unfold groupEntry. fold (dateKey browser entry). fold (wanted entry).
  destruct (String.eqb (dateKey browser entry) day) eqn:E.
  - apply String.eqb_eq in E. subst day.
    destruct (Dict.get (dateKey browser entry) groups) as [es|] eqn:G.
    + destruct (wanted entry).
      * rewrite G. now rewrite dict_get_set_same.
      * rewrite G. now rewrite app_nil_r.
    + rewrite dict_get_set_same.
      destruct (wanted entry); now rewrite dict_get_set_same.
  - apply String.eqb_neq in E.
    destruct (Dict.get (dateKey browser entry) groups) as [es|] eqn:G.
    + destruct (wanted entry); [|reflexivity].
      rewrite G. now apply dict_get_set_other.
    + rewrite dict_get_set_same.
      destruct (wanted entry);
        now rewrite ?dict_get_set_other by exact E.
Qed.

Lemma fold_groupEntry_keys (browser : Browser) (entries : list WeatherEntry)
    (groups : Dict.t (list WeatherEntry)) :
  Dict.keys (fold_left (groupEntry browser) entries groups)
  = fold_left seeDate (map (dateKey browser) entries) (Dict.keys groups).
Proof.
  revert groups. induction entries as [|e entries IH]; intros groups; simpl.
  - reflexivity.
  - now rewrite IH, groupEntry_keys.
Qed.

Lemma fold_groupEntry_get (browser : Browser) (entries : list WeatherEntry)
    (groups : Dict.t (list WeatherEntry)) (day : string) :
  Dict.get day (fold_left (groupEntry browser) entries groups)
  = match Dict.get day groups with
    | Some es => Some (es ++ keptOn browser day entries)
    | None =>
        if existsb (String.eqb day) (map (dateKey browser) entries)
        then Some (keptOn browser day entries)
        else None
    end.
Proof.
  revert groups. induction entries as [|e entries IH]; intros groups; simpl.
  - destruct (Dict.get day groups); [now rewrite app_nil_r | reflexivity].
  - rewrite IH, groupEntry_get. unfold keptOn. simpl.
    rewrite (String.eqb_sym day (dateKey browser e)).
    destruct (String.eqb (dateKey browser e) day) eqn:E; simpl.
    + destruct (Dict.get day groups) as [es|]; destruct (wanted e); simpl;
        now rewrite <- ?app_assoc, ?app_nil_r.
    + reflexivity.
Qed.

Lemma seeDate_NoDup (days acc : list string) :
  NoDup acc -> NoDup (fold_left seeDate days acc).
Proof.
  revert acc. induction days as [|d days IH]; intros acc Hnd; simpl.
  - exact Hnd.
  - apply IH. unfold seeDate.
    destruct (existsb (String.eqb d) acc) eqn:E; [exact Hnd|].
    apply NoDup_app; [exact Hnd | repeat constructor; tauto |].
    intros x Hx [<-|[]].
    apply existsb_eqb_In in Hx. congruence.
Qed.

Lemma seeDate_In (days acc : list string) (d : string) :
  In d (fold_left seeDate days acc) <-> In d acc \/ In d days.
Proof.
  revert acc. induction days as [|d0 days IH]; intros acc; simpl.
  - tauto.
  - rewrite IH. unfold seeDate.
    destruct (existsb (String.eqb d0) acc) eqn:E.
    + apply existsb_eqb_In in E. split; [tauto|].
      intros [H|[<-|H]]; tauto.
    + rewrite in_app_iff. simpl. tauto.
Qed.

Lemma firstSeen_NoDup (days : list string) : NoDup (firstSeen days).
Proof. apply seeDate_NoDup. constructor. Qed.

Lemma firstSeen_In (days : list string) (d : string) :
  In d (firstSeen days) <-> In d days.
Proof. unfold firstSeen. rewrite seeDate_In. simpl. tauto. Qed.

(** The number of distinct dates, counted with the library's [nodup]. *)
Lemma firstSeen_length (days : list string) :
  List.length (firstSeen days) = List.length (nodup string_dec days).
Proof.
  apply Permutation_length, NoDup_Permutation.
  - apply firstSeen_NoDup.
  - apply NoDup_nodup.
  - intros d. now rewrite firstSeen_In, nodup_In.
Qed.

Lemma preparedData_keys (browser : Browser) (entries : list WeatherEntry) :
  Dict.keys (preparedData browser entries)
  = firstSeen (map (dateKey browser) entries).
Proof. exact (fold_groupEntry_keys browser entries []). Qed.

Lemma preparedData_In (browser : Browser) (entries : list WeatherEntry)
    (day : string)
    (es : list WeatherEntry) :
  In (day, es) (preparedData browser entries) ->
  In day (map (dateKey browser) entries) /\ es = keptOn browser day entries.
Proof.
  intros Hin.
  assert (Hkey : In day (map (dateKey browser) entries)).
  { apply firstSeen_In. rewrite <- preparedData_keys.
    change (In (fst (day, es)) (map fst (preparedData browser entries))).
    now apply in_map. }
  split; [exact Hkey|].
  apply dict_In_get in Hin.
  - unfold preparedData in Hin. rewrite fold_groupEntry_get in Hin.
    simpl in Hin. apply existsb_eqb_In in Hkey. rewrite Hkey in Hin.
    congruence.
  - rewrite preparedData_keys. apply firstSeen_NoDup.
Qed.

(** The buckets are the dates in order of first appearance, each with the
    entries of that date the hour filter keeps, in source order. *)
Lemma dailyBuckets_spec (browser : Browser) (entries : list WeatherEntry) :
  dailyBuckets browser entries
  = map (fun day => mkDailyWeather day (keptOn browser day entries))
        (firstSeen (map (dateKey browser) entries)).
Proof.
  unfold dailyBuckets. rewrite <- preparedData_keys. unfold Dict.keys.
  rewrite map_map. apply map_ext_in. intros [day es] Hin. simpl.
  apply preparedData_In in Hin. destruct Hin as [_ ->]. reflexivity.
Qed.

Lemma dailyBuckets_In (browser : Browser) (entries : list WeatherEntry)
    (bucket : DailyWeather) :
  In bucket (dailyBuckets browser entries) ->
  In (date bucket) (map (dateKey browser) entries)
  /\ weatherEntries bucket = keptOn browser (date bucket) entries.
Proof.
  rewrite dailyBuckets_spec, in_map_iff. intros [day [<- Hin]]. simpl.
  split; [now apply firstSeen_In | reflexivity].
Qed.

Lemma processWeatherData_buckets (browser : Browser) (payload : Payload)
    (st : State) :
  dailyWeatherData (fst (processWeatherData browser payload st))
  = match payload with
    | JObject (mkPayload _ (Some entries) (Some _)) =>
        dailyBuckets browser entries
    | _ => []
    end.
Proof.
  destruct payload as [|[m [entries|] [c|]]]; try reflexivity.
  unfold processWeatherData.
  destruct (countryDisplayName browser (city_country c)); reflexivity.
Qed.

Lemma processWeatherData_complete (browser : Browser) (payload : Payload)
    (st : State) :
  completeWeatherData (fst (processWeatherData browser payload st))
  = match payload with
    | JObject (mkPayload _ (Some entries) (Some _)) => entries
    | _ => []
    end.
Proof.
  destruct payload as [|[m [entries|] [c|]]]; try reflexivity.
  unfold processWeatherData.
  destruct (countryDisplayName browser (city_country c)); reflexivity.
Qed.

Lemma processed_bucket_hours (browser : Browser) (payload : Payload)
    (st : State)
    (bucket : DailyWeather) (entry : WeatherEntry) :
  In bucket (dailyWeatherData (fst (processWeatherData browser payload st))) ->
  In entry (weatherEntries bucket) ->
  In (utcHour entry) targetHours.
Proof.
  intros Hb He. rewrite processWeatherData_buckets in Hb.
  destruct payload as [|[m [entries|] [c|]]]; try contradiction.
  apply dailyBuckets_In in Hb. destruct Hb as [_ Hb].
  rewrite Hb in He. apply filter_In in He. destruct He as [_ He].
  apply andb_true_iff in He. now apply wanted_utcHour.
Qed.

(** C1: every entry of every bucket [processWeatherData] produces is
    stamped with a UTC hour of day in {6, 12, 18, 21}; an entry whose UTC
    hour is outside this set is in no bucket. *)
Theorem bucket_entries_at_target_hours (browser : Browser)
    (payload : Payload) (st : State) :
  let st' := fst (processWeatherData browser payload st) in
  (forall bucket entry,
      In bucket (dailyWeatherData st') ->
      In entry (weatherEntries bucket) ->
      In (utcHour entry) [6; 12; 18; 21])
  /\ (forall entry,
         ~ In (utcHour entry) [6; 12; 18; 21] ->
         forall bucket,
           In bucket (dailyWeatherData st') ->
           ~ In entry (weatherEntries bucket)).
Proof.
  intros st'. split.
  - intros bucket entry. apply processed_bucket_hours.
  - intros entry Hout bucket Hb He. apply Hout.
    now apply (processed_bucket_hours browser payload st bucket).
Qed.

(** C2: after a payload with a non-empty list passed validation, the
    current weather is the first element of the raw list, whatever its
    hour: when that hour is not a target hour, the current weather is an
    entry that none of the buckets holds. *)
Theorem current_weather_is_first_raw_entry (browser : Browser)
    (payload : PayloadObject) (first : WeatherEntry)
    (rest : list WeatherEntry) (st : State) :
  validShape (JObject payload) = true ->
  p_list payload = Some (first :: rest) ->
  let st' := fst (processWeatherData browser (JObject payload) st) in
  currentWeather st' = Some first
  /\ (~ In (utcHour first) [6; 12; 18; 21] ->
      forall bucket,
        In bucket (dailyWeatherData st') ->
        ~ In first (weatherEntries bucket)).
Proof.
  intros Hvalid Hlist st'. split.
  - unfold currentWeather. subst st'.
    rewrite processWeatherData_complete.
    destruct payload as [m l [c|]]; simpl in *; subst;
      [reflexivity | discriminate].
  - intros Hout bucket Hb He. apply Hout.
    now apply (processed_bucket_hours browser (JObject payload) st bucket).
Qed.

(** C9: one bucket per distinct date of the raw list, in order of first
    appearance, also for a date none of whose entries is at a target
    hour; the bucket of such a date is empty, and there are as many
    buckets as distinct dates. *)
Theorem bucket_for_every_raw_date (browser : Browser)
    (payload : PayloadObject) (entries : list WeatherEntry) (st : State) :
  validShape (JObject payload) = true ->
  p_list payload = Some entries ->
  let buckets :=
    dailyWeatherData
      (fst (processWeatherData browser (JObject payload) st)) in
  map date buckets = firstSeen (map (dateKey browser) entries)
  /\ (forall entry,
         In entry entries ->
         exists bucket,
           In bucket buckets /\ date bucket = dateKey browser entry)
  /\ (forall bucket,
         In bucket buckets ->
         (forall entry,
             In entry entries ->
             dateKey browser entry = date bucket ->
             ~ In (utcHour entry) [6; 12; 18; 21]) ->
         weatherEntries bucket = [])
  /\ List.length buckets
     = List.length (nodup string_dec (map (dateKey browser) entries)).
Proof.
  intros Hvalid Hlist buckets.
  assert (Hb : buckets = dailyBuckets browser entries).
  { subst buckets. rewrite processWeatherData_buckets.
    destruct payload as [m l [c|]]; simpl in *; subst;
      [reflexivity | discriminate]. }
  assert (Hdates :
    map date buckets = firstSeen (map (dateKey browser) entries)).
  { rewrite Hb, dailyBuckets_spec, map_map. simpl. apply map_id. }
  split; [exact Hdates|]. split; [|split].
  - intros entry Hin.
    assert (Hd : In (dateKey browser entry) (map date buckets)).
    { rewrite Hdates. apply firstSeen_In. now apply in_map. }
    apply in_map_iff in Hd. destruct Hd as [bucket [Hd Hbucket]].
    now exists bucket.
  - intros bucket Hin Hnone. rewrite Hb in Hin.
    apply dailyBuckets_In in Hin. destruct Hin as [_ ->].
    unfold keptOn.
    destruct (filter _ entries) as [|e es] eqn:F; [reflexivity|].
    assert (He : In e (e :: es)) by now left.
    rewrite <- F in He. apply filter_In in He. destruct He as [He Hsel].
    apply andb_true_iff in Hsel. destruct Hsel as [Hday Hw].
    apply String.eqb_eq in Hday. exfalso.
    apply (Hnone e He Hday). now apply wanted_utcHour.
  - rewrite <- firstSeen_length, <- Hdates. now rewrite length_map.
Qed.

(** ** The cache sweep *)

Lemma insertRecent_perm (x : string * Cached) (l : list (string * Cached)) :
  Permutation (x :: l) (insertRecent x l).
Proof.
  induction l as [|y l IH]; simpl.
  - reflexivity.
  - destruct (timestamp (snd y) - timestamp (snd x) >? 0).
    + rewrite perm_swap. now apply perm_skip.
    + reflexivity.
Qed.

Lemma sortRecent_perm (l : list (string * Cached)) :
  Permutation l (sortRecent l).
Proof.
  induction l as [|x l IH]; simpl.
  - reflexivity.
  - rewrite <- insertRecent_perm. now apply perm_skip.
Qed.

Lemma insertRecent_sorted (x : string * Cached) (l : list (string * Cached)) :
  StronglySorted notOlder l -> StronglySorted notOlder (insertRecent x l).
Proof.
  induction l as [|y l IH]; intros Hs; simpl.
  - repeat constructor.
  - inversion Hs as [|? ? Hl Hy]; subst.
    destruct (timestamp (snd y) - timestamp (snd x) >? 0) eqn:E.
    + constructor; [now apply IH|].
      apply Forall_forall. intros z Hz.
      apply (Permutation_in _ (Permutation_sym (insertRecent_perm x l))) in Hz.
      destruct Hz as [<-|Hz].
      * unfold notOlder. lia.
      * rewrite Forall_forall in Hy. now apply Hy.
    + constructor; [exact Hs|].
      assert (Hxy : notOlder x y) by (unfold notOlder; lia).
      constructor; [exact Hxy|].
      rewrite Forall_forall in Hy |- *. intros z Hz.
      specialize (Hy z Hz). unfold notOlder in *. lia.
Qed.

Lemma sortRecent_sorted (l : list (string * Cached)) :
  StronglySorted notOlder (sortRecent l).
Proof.
  induction l as [|x l IH]; simpl.
  - constructor.
  - now apply insertRecent_sorted.
Qed.

Lemma sorted_prefix_dominates {A : Type} (R : A -> A -> Prop)
    (l1 l2 : list A) :
  StronglySorted R (l1 ++ l2) ->
  forall a b, In a l1 -> In b l2 -> R a b.
Proof.
  induction l1 as [|x l1 IH]; simpl; intros Hs a b Ha Hb; [contradiction|].
  inversion Hs as [|? ? Hl Hx]; subst.
  destruct Ha as [<-|Ha].
  - rewrite Forall_forall in Hx. apply Hx. apply in_or_app. now right.
  - now apply IH.
Qed.

Lemma firstn_In {A : Type} (n : nat) (l : list A) (x : A) :
  In x (firstn n l) -> In x l.
Proof.
  intros Hin. rewrite <- (firstn_skipn n l). apply in_or_app. now left.
Qed.

Lemma NoDup_map_firstn {A B : Type} (f : A -> B) (n : nat) (l : list A) :
  NoDup (map f l) -> NoDup (map f (firstn n l)).
Proof.
  revert n. induction l as [|x l IH]; intros [|n] Hnd; simpl;
    try constructor.
  - inversion Hnd as [|? ? Hx Hl]; subst. intros Hin. apply Hx.
    apply in_map_iff in Hin. destruct Hin as [y [Hy Hin]].
    apply in_map_iff. exists y. split; [exact Hy|].
    now apply (firstn_In n).
  - inversion Hnd; subst. now apply IH.
Qed.

(** With distinct keys, the sweep of a cache of more than ten entries
    leaves the first five of the entries sorted by recency. *)
Lemma cleanupCache_overflow (st : State) :
  NoDup (Dict.keys (weatherCache st)) ->
  Dict.size (weatherCache st) > 10 ->
  weatherCache (cleanupCache st) = firstn 5 (sortRecent (weatherCache st)).
Proof.
  intros Hnd Hsize. unfold cleanupCache.
  destruct (Dict.size (weatherCache st) >? 10) eqn:E; [|lia].
  cbn [weatherCache].
  apply dict_of_entries_nodup, NoDup_map_firstn.
  apply (Permutation_NoDup (l := Dict.keys (weatherCache st)));
    [|exact Hnd].
  apply Permutation_map, sortRecent_perm.
Qed.

(** C5: a sweep over more than ten entries leaves exactly five, all of
    them entries the cache held, none of them older than any entry it
    removed; a sweep over ten entries or fewer changes nothing.  The cache
    is a [Map], so its keys are distinct. *)
Theorem sweep_keeps_five_most_recent (st : State) :
  NoDup (Dict.keys (weatherCache st)) ->
  let st' := cleanupCache st in
  (Dict.size (weatherCache st) <= 10 -> st' = st)
  /\ (Dict.size (weatherCache st) > 10 ->
      List.length (weatherCache st') = 5%nat
      /\ NoDup (Dict.keys (weatherCache st'))
      /\ (forall kept, In kept (weatherCache st') -> In kept (weatherCache st))
      /\ (forall kept removed,
             In kept (weatherCache st') ->
             In removed (weatherCache st) ->
             ~ In removed (weatherCache st') ->
             timestamp (snd removed) <= timestamp (snd kept))).
Proof.
  intros Hnd st'. split.
  - intros Hsize. subst st'. unfold cleanupCache.
    destruct (Dict.size (weatherCache st) >? 10) eqn:E; [lia | reflexivity].
  - intros Hsize. subst st'. rewrite (cleanupCache_overflow st Hnd Hsize).
    pose proof (sortRecent_perm (weatherCache st)) as Hperm.
    pose proof (sortRecent_sorted (weatherCache st)) as Hsorted.
    set (sorted := sortRecent (weatherCache st)) in *.
    repeat split.
    + rewrite length_firstn. apply Permutation_length in Hperm.
      unfold Dict.size in Hsize. lia.
    + apply NoDup_map_firstn.
      apply (Permutation_NoDup (l := Dict.keys (weatherCache st)));
        [|exact Hnd].
      now apply Permutation_map.
    + intros kept Hin. apply (Permutation_in _ (Permutation_sym Hperm)).
      now apply (firstn_In 5).
    + intros kept removed Hkept Hremoved Hgone.
      rewrite <- (firstn_skipn 5 sorted) in Hsorted.
      apply (sorted_prefix_dominates notOlder _ _ Hsorted kept removed Hkept).
      apply (Permutation_in _ Hperm) in Hremoved.
      rewrite <- (firstn_skipn 5 sorted) in Hremoved.
      apply in_app_or in Hremoved. tauto.
Qed.

(** ** Failed requests *)

Lemma processWeatherData_frame (browser : Browser) (payload : Payload)
    (st : State) :
  let st' := fst (processWeatherData browser payload st) in
  isLoading st' = isLoading st
  /\ lastFetchedCity st' = lastFetchedCity st
  /\ weatherCache st' = weatherCache st.
Proof.
  destruct payload as [|[m [entries|] [c|]]]; simpl; try tauto.
  destruct (countryDisplayName browser (city_country c)); simpl; tauto.
Qed.

Lemma processWeatherData_invalid (browser : Browser) (payload : Payload)
    (st : State) :
  validShape payload = false ->
  processWeatherData browser payload st
  = (mkState None [] [] (isLoading st)
             (Some "Ungültige Wetterdaten erhalten")
             (lastFetchedCity st) (weatherCache st), None).
Proof.
  destruct payload as [|[m [entries|] [c|]]]; simpl;
    try reflexivity; discriminate.
Qed.

Lemma catchForecastError_cleared (err : JsThrown) (st : State) :
  cleared (catchForecastError err st).
Proof. repeat split. Qed.

(** The same payload coming out of the cache fails the same way. *)
Lemma invalid_payload_reprocessed (browser : Browser) (payload : Payload)
    (st : State) :
  validShape payload = false ->
  let st' := fst (processWeatherData browser payload st) in
  error st' = Some "Ungültige Wetterdaten erhalten" /\ cleared st'.
Proof.
  intros Hinvalid. rewrite processWeatherData_invalid by exact Hinvalid.
  repeat split.
Qed.

(** ** The guard, the cache and the network *)

Lemma isLast_true (cityName : string) (st : State) :
  isLast cityName st = true <-> lastFetchedCity st = Some cityName.
Proof.
  unfold isLast. destruct (lastFetchedCity st) as [last|].
  - rewrite String.eqb_eq. split; congruence.
  - split; discriminate.
Qed.

Lemma isLast_false (cityName : string) (st : State) :
  isLast cityName st = false <-> lastFetchedCity st <> Some cityName.
Proof.
  rewrite <- isLast_true. destruct (isLast cityName st); split; congruence.
Qed.

Lemma fetchStart_suppressed (browser : Browser) (cityName : string) (now : Z)
    (st : State) :
  truthy cityName = true ->
  lastFetchedCity st = Some cityName ->
  fetchStart browser cityName now st = Suppressed.
Proof.
  intros Ht Hlast. apply isLast_true in Hlast. unfold fetchStart.
  rewrite Ht. fold (isLast cityName st). now rewrite Hlast.
Qed.

Lemma fetchStart_fresh (browser : Browser) (cityName : string) (now : Z)
    (st : State)
    (cached : Cached) :
  truthy cityName = true ->
  lastFetchedCity st <> Some cityName ->
  Dict.get cityName (weatherCache st) = Some cached ->
  now - timestamp cached < CACHE_DURATION ->
  fetchStart browser cityName now st
  = FromCache (fst (processWeatherData browser (data cached) st))
              (snd (processWeatherData browser (data cached) st)).
Proof.
  intros Ht Hlast Hget Hfresh. apply isLast_false in Hlast.
  unfold fetchStart. rewrite Ht. fold (isLast cityName st).
  rewrite Hlast, Hget. simpl.
  destruct (now - timestamp cached <? CACHE_DURATION) eqn:E; [|lia].
  now destruct (processWeatherData browser (data cached) st).
Qed.

Lemma fetchStart_stale (browser : Browser) (cityName : string) (now : Z)
    (st : State)
    (cached : Cached) :
  truthy cityName = true ->
  lastFetchedCity st <> Some cityName ->
  Dict.get cityName (weatherCache st) = Some cached ->
  CACHE_DURATION <= now - timestamp cached ->
  fetchStart browser cityName now st
  = Requested (mkState (locationInfoData st) (completeWeatherData st)
                       (dailyWeatherData st) true None (Some cityName)
                       (weatherCache st)).
Proof.
  intros Ht Hlast Hget Hstale. apply isLast_false in Hlast.
  unfold fetchStart. rewrite Ht. fold (isLast cityName st).
  rewrite Hlast, Hget. simpl.
  destruct (now - timestamp cached <? CACHE_DURATION) eqn:E; [lia|].
  reflexivity.
Qed.

Lemma fetchSettle_lastFetchedCity (browser : Browser) (cityName : string)
    (outcome : FetchOutcome) (now : Z) (st : State) :
  lastFetchedCity (fetchSettle browser cityName outcome now st)
  = lastFetchedCity st.
Proof.
  destruct outcome as [err|ok err|[|] body]; try reflexivity.
  unfold fetchSettle.
  match goal with
  | |- context [processWeatherData browser body ?s] =>
      pose proof (processWeatherData_frame browser body s) as Hf;
      destruct (processWeatherData browser body s) as [st2 [err|]]
  end; simpl in *; tauto.
Qed.

(** What a settled request leaves in the cache. *)
Lemma fetchSettle_weatherCache (browser : Browser) (cityName : string)
    (outcome : FetchOutcome)
    (now : Z) (st : State) :
  weatherCache (fetchSettle browser cityName outcome now st)
  = match outcome with
    | Resolved true body =>
        Dict.set cityName (mkCached now body) (weatherCache st)
    | _ => weatherCache st
    end.
Proof.
  destruct outcome as [err|ok err|[|] body]; try reflexivity.
  unfold fetchSettle.
  match goal with
  | |- context [processWeatherData browser body ?s] =>
      pose proof (processWeatherData_frame browser body s) as Hf;
      destruct (processWeatherData browser body s) as [st2 [err|]]
  end; simpl in *; tauto.
Qed.

(** C3, as the code has it: a successful request for the city stored its
    payload at [stored], and [st] is a state in which that payload is
    still cached.  While the city is the last one requested from the
    network, a request for it does nothing, however old the payload is.
    Otherwise the request processes the cached payload without a network
    call when less than ten minutes have passed, and issues a network
    call when ten minutes or more have passed. *)
Theorem cached_city_request (browser : Browser) (cityName : string)
    (body : Payload) (stored : Z) (st0 st : State) (now : Z)
    (outcome : FetchOutcome) (settled : Z) :
  truthy cityName = true ->
  Dict.get cityName (weatherCache st)
  = Dict.get cityName
      (weatherCache
         (fetchSettle browser cityName (Resolved true body) stored st0)) ->
  let result :=
    fetchWeatherForecast browser cityName now outcome settled st in
  (lastFetchedCity st = Some cityName ->
   result = (st, []))
  /\ (lastFetchedCity st <> Some cityName ->
      (now - stored < CACHE_DURATION ->
       result = (fst (processWeatherData browser body st), []))
      /\ (CACHE_DURATION <= now - stored ->
          snd result = [cityName])).
Proof.
  intros Ht Hcached result.
  rewrite fetchSettle_weatherCache, dict_get_set_same in Hcached.
  subst result. unfold fetchWeatherForecast. split.
  - intros Hlast. now rewrite fetchStart_suppressed.
  - intros Hlast. split.
    + intros Hfresh.
      now rewrite (fetchStart_fresh browser _ _ _ _ Ht Hlast Hcached Hfresh).
    + intros Hstale.
      now rewrite (fetchStart_stale browser _ _ _ _ Ht Hlast Hcached Hstale).
Qed.

(** The three ways a call goes: nothing happens, the cached payload is
    processed, or a request is issued and settles. *)
Lemma fetchWeatherForecast_cases (browser : Browser) (cityName : string)
    (now : Z)
    (outcome : FetchOutcome) (settled : Z) (st : State) :
  let result :=
    fetchWeatherForecast browser cityName now outcome settled st in
  ((truthy cityName = false \/ lastFetchedCity st = Some cityName)
   /\ result = (st, []))
  \/ (truthy cityName = true
      /\ lastFetchedCity st <> Some cityName
      /\ exists cached,
           Dict.get cityName (weatherCache st) = Some cached
           /\ now - timestamp cached < CACHE_DURATION
           /\ result
              = (fst (processWeatherData browser (data cached) st), []))
  \/ (truthy cityName = true
      /\ lastFetchedCity st <> Some cityName
      /\ snd result = [cityName]
      /\ lastFetchedCity (fst result) = Some cityName).
Proof.
  intros result. subst result. unfold fetchWeatherForecast, fetchStart.
  destruct (truthy cityName) eqn:Ht; cbn [negb]; [|left; tauto].
  fold (isLast cityName st).
  destruct (isLast cityName st) eqn:Hlast.
  { apply isLast_true in Hlast. left. tauto. }
  apply isLast_false in Hlast. right.
  destruct (Dict.get cityName (weatherCache st)) as [cached|] eqn:Hget.
  - destruct (now - timestamp cached <? CACHE_DURATION) eqn:Hfresh.
    + left. split; [reflexivity|]. split; [exact Hlast|].
      exists cached. split; [reflexivity|]. split; [lia|].
      now destruct (processWeatherData browser (data cached) st).
    + right. cbn [fst snd]. rewrite fetchSettle_lastFetchedCity.
      cbn [lastFetchedCity]. tauto.
  - right. cbn [fst snd]. rewrite fetchSettle_lastFetchedCity.
    cbn [lastFetchedCity]. tauto.
Qed.

(** C4, as the code has it: two calls in a row with the same city name
    issue at most one network request.  When the first call issues it,
    the second call does nothing.  The second call issues one only when
    the first call was served from a cached payload that was less than
    ten minutes old at the first call and no longer at the second. *)
Theorem repeated_request_at_most_one_call (browser : Browser)
    (cityName : string) (now1 : Z) (outcome1 : FetchOutcome) (settled1 : Z)
    (now2 : Z) (outcome2 : FetchOutcome) (settled2 : Z) (st : State) :
  let first :=
    fetchWeatherForecast browser cityName now1 outcome1 settled1 st in
  let second :=
    fetchWeatherForecast browser cityName now2 outcome2 settled2 (fst first) in
  (List.length (snd first ++ snd second) <= 1)%nat
  /\ (snd first = [cityName] -> second = (fst first, []))
  /\ (snd second <> [] ->
      snd first = []
      /\ exists cached,
           Dict.get cityName (weatherCache st) = Some cached
           /\ fst first = fst (processWeatherData browser (data cached) st)
           /\ now1 - timestamp cached < CACHE_DURATION
           /\ CACHE_DURATION <= now2 - timestamp cached).
Proof.
  intros first second.
  destruct (fetchWeatherForecast_cases browser cityName now1 outcome1
              settled1 st)
    as [[Hskip H1]|[[Ht [Hlast [cached [Hget [Hfresh H1]]]]]
                   |[Ht [Hlast [Hcalls Hlast1]]]]];
    fold first in H1 || fold first in Hcalls, Hlast1.
  - assert (H2 : second = (st, [])).
    { subst second. rewrite H1. simpl.
      destruct (fetchWeatherForecast_cases browser cityName now2 outcome2
                  settled2 st)
        as [[_ H2]|[[Ht [Hlast _]]|[Ht [Hlast _]]]];
        [exact H2 | |]; destruct Hskip; congruence. }
    rewrite H1, H2. simpl.
    split; [lia|]. split; [discriminate|]. intros H. now elim H.
  - pose proof (processWeatherData_frame browser (data cached) st)
      as [_ [Hl Hc]].
    assert (Hget1 : Dict.get cityName (weatherCache (fst first))
                    = Some cached) by (rewrite H1; simpl; congruence).
    assert (Hlast1 : lastFetchedCity (fst first) <> Some cityName)
      by (rewrite H1; simpl; congruence).
    destruct (fetchWeatherForecast_cases browser cityName now2 outcome2
                settled2 (fst first))
      as [[Hskip H2]|[[_ [_ [cached2 [Hget2 [Hfresh2 H2]]]]]
                     |[_ [_ [Hcalls2 _]]]]];
      fold second in H2 || fold second in Hcalls2.
    + destruct Hskip; congruence.
    + rewrite H1, H2. simpl.
      split; [lia|]. split; [discriminate|]. intros H. now elim H.
    + rewrite H1 at 1 2. simpl. rewrite Hcalls2. simpl.
      split; [lia|]. split; [rewrite H1; discriminate|].
      intros _. split; [now rewrite H1|]. exists cached.
      split; [exact Hget|]. split; [now rewrite H1|]. split; [exact Hfresh|].
      destruct (Z_lt_ge_dec (now2 - timestamp cached) CACHE_DURATION)
        as [Hf|Hs]; [|lia].
      exfalso. subst second. unfold fetchWeatherForecast in Hcalls2.
      rewrite (fetchStart_fresh browser _ _ _ _ Ht Hlast1 Hget1 Hf)
        in Hcalls2.
      discriminate.
  - assert (H2 : second = (fst first, [])).
    { subst second. unfold fetchWeatherForecast.
      now rewrite fetchStart_suppressed. }
    rewrite Hcalls, H2. simpl.
    split; [lia|]. split; [reflexivity|]. intros H. now elim H.
Qed.

(** C6, as the code has it: a request sent to the network that fails
    through the network or an unparsable body, through a bad status or
    through the shape of the payload shows [shownMessage] (the thrown
    error's own message; for a bad status the server's message as a
    string, or the generic text when it is missing or falsy; for a bad
    shape the fixed text), with every derived collection empty and the
    loading flag off, in whatever state the response arrives.  A call
    that is served a cached payload of the wrong shape shows the fixed
    text as well, with every derived collection empty. *)
Theorem failed_request_message_and_reset (browser : Browser)
    (cityName : string) (outcome : FetchOutcome) (now : Z) (st : State) :
  (failed outcome = true ->
   let st' := fetchSettle browser cityName outcome now st in
   error st' = Some (shownMessage browser outcome)
   /\ cleared st'
   /\ isLoading st' = false)
  /\ (forall cached,
         truthy cityName = true ->
         lastFetchedCity st <> Some cityName ->
         Dict.get cityName (weatherCache st) = Some cached ->
         now - timestamp cached < CACHE_DURATION ->
         validShape (data cached) = false ->
         exists st',
           fetchStart browser cityName now st = FromCache st' None
           /\ error st' = Some "Ungültige Wetterdaten erhalten"
           /\ cleared st').
Proof.
  split.
  - intros Hfailed.
    destruct outcome as [[m|]|ok [m|]|[|] body]; simpl in Hfailed |- *;
      try (repeat split; reflexivity).
    + apply negb_true_iff in Hfailed.
      unfold fetchSettle. rewrite processWeatherData_invalid by exact Hfailed.
      repeat split.
    + destruct body as [|[[[s|n|isTruthy text]|] l c]]; simpl;
        try (repeat split; reflexivity).
      * unfold truthy. destruct (String.eqb s ""); repeat split.
      * destruct (n =? 0); repeat split.
  - intros cached Ht Hlast Hget Hfresh Hinvalid.
    rewrite (fetchStart_fresh browser _ _ _ _ Ht Hlast Hget Hfresh).
    rewrite processWeatherData_invalid by exact Hinvalid. cbn [fst snd].
    eexists. split; [reflexivity|]. repeat split.
Qed.

(** C10, as the code has it: a settled request stores the payload exactly
    when the response came with a success status, before validation.  A
    payload of the wrong shape is therefore cached while the display goes
    to the Error state; as long as it is cached and less than ten minutes
    old, a later request for the city processes it again into the Error
    state if another city was requested from the network meanwhile, and
    does nothing while the city is still the last one requested. *)
Theorem payload_cached_on_success_status (browser : Browser)
    (cityName : string) (outcome : FetchOutcome) (settled : Z) (st : State) :
  let st' := fetchSettle browser cityName outcome settled st in
  weatherCache st'
  = match outcome with
    | Resolved true body =>
        Dict.set cityName (mkCached settled body) (weatherCache st)
    | _ => weatherCache st
    end
  /\ forall body,
       outcome = Resolved true body ->
       validShape body = false ->
       Dict.get cityName (weatherCache st') = Some (mkCached settled body)
       /\ error st' = Some "Ungültige Wetterdaten erhalten"
       /\ cleared st'
       /\ forall later now,
            truthy cityName = true ->
            Dict.get cityName (weatherCache later)
            = Some (mkCached settled body) ->
            now - settled < CACHE_DURATION ->
            (lastFetchedCity later = Some cityName ->
             fetchStart browser cityName now later = Suppressed)
            /\ (lastFetchedCity later <> Some cityName ->
                exists st'',
                  fetchStart browser cityName now later = FromCache st'' None
                  /\ error st'' = Some "Ungültige Wetterdaten erhalten"
                  /\ cleared st'').
Proof.
  intros st'. split; [apply fetchSettle_weatherCache|].
  intros body -> Hinvalid.
  assert (Hsettled :
    error st' = Some "Ungültige Wetterdaten erhalten" /\ cleared st').
  { subst st'. unfold fetchSettle.
    rewrite processWeatherData_invalid by exact Hinvalid. repeat split. }
  destruct Hsettled as [Herror Hcleared].
  split; [|split; [exact Herror | split; [exact Hcleared|]]].
  - subst st'. rewrite fetchSettle_weatherCache. apply dict_get_set_same.
  - intros later now Ht Hget Hfresh. split.
    + intros Hlast. now apply fetchStart_suppressed.
    + intros Hlast.
      rewrite (fetchStart_fresh browser _ _ _ _ Ht Hlast Hget Hfresh). simpl.
      rewrite processWeatherData_invalid by exact Hinvalid. simpl.
      eexists. split; [reflexivity|]. repeat split.
Qed.

(** ** What every run of the component maintains *)

Lemma dict_set_NoDup {V : Type} (k : string) (v : V) (m : Dict.t V) :
  NoDup (Dict.keys m) -> NoDup (Dict.keys (Dict.set k v m)).
Proof.
  intros Hnd. destruct (in_dec string_dec k (Dict.keys m)) as [Hin|Hout].
  - now rewrite dict_keys_set_present.
  - rewrite dict_keys_set_absent by exact Hout.
    apply NoDup_app; [exact Hnd | repeat constructor; tauto |].
    intros x Hx [<-|[]]. contradiction.
Qed.

Lemma processWeatherData_wellFormed (browser : Browser) (payload : Payload)
    (st : State) :
  wellFormed st -> wellFormed (fst (processWeatherData browser payload st)).
Proof.
  intros [Hkeys _]. split.
  - pose proof (processWeatherData_frame browser payload st) as [_ [_ Hc]].
    now rewrite Hc.
  - intros bucket entry. apply processed_bucket_hours.
Qed.

Lemma catchForecastError_wellFormed (err : JsThrown) (st : State) :
  wellFormed st -> wellFormed (catchForecastError err st).
Proof.
  intros [Hkeys _]. split; [exact Hkeys|]. intros bucket entry [].
Qed.

Lemma fetchSettle_wellFormed (browser : Browser) (cityName : string)
    (outcome : FetchOutcome) (now : Z) (st : State) :
  wellFormed st -> wellFormed (fetchSettle browser cityName outcome now st).
Proof.
  intros Hwf.
  assert (Hflag : forall st1, wellFormed st1 ->
            wellFormed (mkState (locationInfoData st1)
                          (completeWeatherData st1) (dailyWeatherData st1)
                          false (error st1) (lastFetchedCity st1)
                          (weatherCache st1))) by (intros st1 H; exact H).
  unfold fetchSettle. apply Hflag.
  destruct outcome as [err|ok err|[|] body];
    try now apply catchForecastError_wellFormed.
  match goal with
  | |- context [processWeatherData browser body ?s] =>
      assert (Hs : wellFormed s)
        by (destruct Hwf as [Hkeys Hb]; split;
            [now apply dict_set_NoDup | exact Hb]);
      pose proof (processWeatherData_wellFormed browser body s Hs) as Hp;
      destruct (processWeatherData browser body s) as [st2 [err|]]
  end; simpl in Hp; [now apply catchForecastError_wellFormed | exact Hp].
Qed.

Lemma cleanupCache_wellFormed (st : State) :
  wellFormed st -> wellFormed (cleanupCache st).
Proof.
  intros [Hkeys Hb].
  destruct (Z_gt_le_dec (Dict.size (weatherCache st)) 10) as [Hbig|Hsmall].
  - split.
    + rewrite (cleanupCache_overflow st Hkeys Hbig).
      apply NoDup_map_firstn.
      apply (Permutation_NoDup (l := Dict.keys (weatherCache st)));
        [|exact Hkeys].
      apply Permutation_map, sortRecent_perm.
    + unfold cleanupCache.
      destruct (Dict.size (weatherCache st) >? 10); exact Hb.
  - unfold cleanupCache.
    destruct (Dict.size (weatherCache st) >? 10) eqn:E; [lia|].
    now split.
Qed.

Lemma step_wellFormed (browser : Browser) (ev : Event) (st : State) :
  wellFormed st -> wellFormed (fst (step browser ev st)).
Proof.
  intros Hwf. destruct ev as [cityName now outcome settled|]; simpl.
  - unfold fetchWeatherForecast, fetchStart.
    destruct (negb (truthy cityName)); [exact Hwf|].
    destruct (match lastFetchedCity st with
              | Some last => String.eqb cityName last
              | None => false
              end); [exact Hwf|].
    assert (Hrequest :
      wellFormed (fetchSettle browser cityName outcome settled
                    (mkState (locationInfoData st) (completeWeatherData st)
                       (dailyWeatherData st) true None (Some cityName)
                       (weatherCache st))))
      by (apply fetchSettle_wellFormed; exact Hwf).
    destruct (Dict.get cityName (weatherCache st)) as [cached|];
      [|exact Hrequest].
    destruct (now - timestamp cached <? CACHE_DURATION); [|exact Hrequest].
    pose proof (processWeatherData_wellFormed browser (data cached) st Hwf).
    now destruct (processWeatherData browser (data cached) st).
  - now apply cleanupCache_wellFormed.
Qed.

(** X16: whatever the events, a well-formed component stays well formed:
    the cache keeps at most one entry per city and every bucket on
    display holds entries of the target hours only.  The component right
    after setup is well formed ([initialState_wellFormed]). *)
Lemma run_wellFormed (browser : Browser) (evs : list Event) (st : State) :
  wellFormed st -> wellFormed (fst (run browser evs st)).
Proof.
  revert st. induction evs as [|ev evs IH]; intros st Hwf; simpl.
  - exact Hwf.
  - pose proof (step_wellFormed browser ev st Hwf) as H1.
    destruct (step browser ev st) as [st1 calls1]. simpl in H1.
    specialize (IH st1 H1).
    now destruct (run browser evs st1) as [st2 calls2].
Qed.

Lemma initialState_wellFormed : wellFormed initialState.
Proof. split; [constructor | intros bucket entry []]. Qed.

(* ================================================================== *)
(** * Properties of the location resolver *)
(* ================================================================== *)

Lemma truthy_nonempty (s : string) : s <> "" -> truthy s = true.
Proof.
  intros Hne. unfold truthy. apply String.eqb_neq in Hne. now rewrite Hne.
Qed.

(** C7, as the code has it: for a response with a body that is not null,
    the resolver reads the components of the first result and of no
    other.  It returns their normalized city name when it is present and
    not empty, otherwise their city field when it is present, otherwise
    "n.V."; missing components, a missing first result and a missing
    result list count as empty components and give "n.V.".  A null body
    gives the text of a failed request. *)
Theorem resolved_city_name (lat lon : string) :
  (forall c others normalized,
      _normalized_city c = Some normalized ->
      normalized <> "" ->
      getCityName lat lon
        (GeoResolved (GObject (Some (mkGeoResult (Some c) :: others))))
      = normalized)
  /\ (forall c others generic,
         noNormalizedCity c ->
         city c = Some generic ->
         getCityName lat lon
           (GeoResolved (GObject (Some (mkGeoResult (Some c) :: others))))
         = generic)
  /\ (forall c others,
         noNormalizedCity c ->
         city c = None ->
         getCityName lat lon
           (GeoResolved (GObject (Some (mkGeoResult (Some c) :: others))))
         = "n.V.")
  /\ (forall others,
         getCityName lat lon
           (GeoResolved (GObject (Some (mkGeoResult None :: others))))
         = "n.V.")
  /\ getCityName lat lon (GeoResolved (GObject (Some []))) = "n.V."
  /\ getCityName lat lon (GeoResolved (GObject None)) = "n.V."
  /\ getCityName lat lon (GeoResolved GNull) = "error fetching city name".
Proof.
  unfold getCityName, componentsOf, localityOf, js_or.
  split; [|split; [|split; [|repeat split]]].
  - intros c others normalized Hnormalized Hne. cbn [components].
    rewrite Hnormalized. now rewrite truthy_nonempty.
  - intros c others generic [Hnone|Hempty] Hcity; cbn [components].
    + now rewrite Hnone, Hcity.
    + now rewrite Hempty, Hcity.
  - intros c others [Hnone|Hempty] Hcity; cbn [components].
    + now rewrite Hnone, Hcity.
    + now rewrite Hempty, Hcity.
Qed.

Lemma sameField_refl (a : option string) : sameField a a = true.
Proof. destruct a; simpl; [apply String.eqb_refl | reflexivity]. Qed.

(** C8: a click on a point whose spatial reference is not Web Mercator
    adds one warning and nothing else: the two coordinate fields and the
    place name keep their values, and the watcher does not run. *)
Theorem non_web_mercator_click_ignored (toFixed3 : Q -> string)
    (destructureMessage : string) (point : MapPoint) (outcome : GeoOutcome)
    (st : Resolver) :
  isWebMercator (spatialReference point) = false ->
  let event := mkViewClickEvent (Some point) in
  let st' := click toFixed3 destructureMessage event outcome st in
  onViewClick toFixed3 destructureMessage event st = (st', None)
  /\ warnings st' = warnings st ++ [spatialReference point]
  /\ locationLatitude st' = locationLatitude st
  /\ locationLongitude st' = locationLongitude st
  /\ cityName st' = cityName st.
Proof.
  intros Hother event st'. subst st'. unfold click, onViewClick. simpl.
  rewrite Hother. simpl. rewrite !sameField_refl. simpl.
  repeat split.
Qed.

(* ================================================================== *)
(** * The components at work *)
(* ================================================================== *)

(** The example of the specification: the day holds the entries of the
    hours 6, 12, 18 and 21, the current weather is the entry of hour 3,
    and the second date, seen at midnight only, has an empty bucket. *)
Example march_forecast :
  dailyWeatherData processMarch
  = [mkDailyWeather "Fri Mar 01 2024"
       [entryAt 1709272800; entryAt 1709294400; entryAt 1709316000;
        entryAt 1709326800];
     mkDailyWeather "Sat Mar 02 2024" []]
  /\ currentWeather processMarch = Some (entryAt 1709262000)
  /\ utcHour (entryAt 1709262000) = 3
  /\ locationInfoData processMarch
     = Some (mkLocationInfo "Berlin" "Deutschland").
Proof. repeat split. Qed.

Lemma bucket_entries_at_target_hours_witness :
  In (utcHour (entryAt 1709272800)) [6; 12; 18; 21].
Proof.
  apply (proj1 (bucket_entries_at_target_hours sampleBrowser
                  (JObject marchPayload) initialState)
               (mkDailyWeather "Fri Mar 01 2024"
                  [entryAt 1709272800; entryAt 1709294400;
                   entryAt 1709316000; entryAt 1709326800])).
  - vm_compute. left. reflexivity.
  - vm_compute. left. reflexivity.
Defined.

Lemma current_weather_is_first_raw_entry_witness :
  currentWeather processMarch = Some (entryAt 1709262000)
  /\ forall bucket,
       In bucket (dailyWeatherData processMarch) ->
       ~ In (entryAt 1709262000) (weatherEntries bucket).
Proof.
  destruct (current_weather_is_first_raw_entry sampleBrowser
              marchPayload (entryAt 1709262000) (tl marchEntries)
              initialState eq_refl eq_refl) as [Hcurrent Hbuckets].
  split; [exact Hcurrent|]. apply Hbuckets.
  vm_compute. intuition discriminate.
Defined.

Lemma bucket_for_every_raw_date_witness :
  map date (dailyWeatherData processMarch)
  = ["Fri Mar 01 2024"; "Sat Mar 02 2024"]
  /\ weatherEntries (nth 1 (dailyWeatherData processMarch)
                         (mkDailyWeather "" [entryAt 0])) = []
  /\ List.length (dailyWeatherData processMarch) = 2%nat.
Proof.
  destruct (bucket_for_every_raw_date sampleBrowser marchPayload
              marchEntries initialState eq_refl eq_refl)
    as [Hdates [_ [Hempty Hcount]]].
  split; [exact Hdates|]. split; [|exact Hcount].
  apply Hempty.
  - vm_compute. right. left. reflexivity.
  - intros entry Hin Hday Hhour. vm_compute in Hin.
    repeat (destruct Hin as [<-|Hin];
            [vm_compute in Hday, Hhour;
             first [discriminate Hday | intuition discriminate]|]).
    exact Hin.
Defined.

Lemma sweep_keeps_five_most_recent_witness :
  weatherCache (cleanupCache crowded)
  = map (fun kv => (fst kv, mkCached (snd kv) shapeless))
        [("Essen", 11000); ("Hamm", 10000); ("Celle", 9000); ("Jena", 8000);
         ("Fulda", 7000)]
  /\ List.length (weatherCache (cleanupCache crowded)) = 5%nat.
Proof.
  split; [reflexivity|].
  assert (Hkeys : NoDup (Dict.keys (weatherCache crowded))).
  { repeat (constructor; [simpl; intuition discriminate|]). constructor. }
  exact (proj1 (proj2 (sweep_keeps_five_most_recent crowded Hkeys) eq_refl)).
Defined.

Lemma failed_request_message_and_reset_witness :
  error (fetchSettle sampleBrowser "Atlantis" cityNotFound 1000 requesting)
  = Some "city not found"
  /\ cleared
       (fetchSettle sampleBrowser "Atlantis" cityNotFound 1000 requesting)
  /\ error (fetchSettle sampleBrowser "Atlantis" statusNumber 1000 requesting)
     = Some "404".
Proof.
  destruct (proj1 (failed_request_message_and_reset sampleBrowser "Atlantis"
                     cityNotFound 1000 requesting) eq_refl)
    as [Hmessage [Hcleared _]].
  destruct (proj1 (failed_request_message_and_reset sampleBrowser "Atlantis"
                     statusNumber 1000 requesting) eq_refl)
    as [Hnumber _].
  split; [exact Hmessage|]. split; [exact Hcleared | exact Hnumber].
Defined.

Lemma cached_city_request_witness :
  fetchWeatherForecast sampleBrowser "Berlin" 5000 offline 5500 hamburgFetched
  = (fst (processWeatherData sampleBrowser (JObject marchPayload)
                             hamburgFetched), [])
  /\ snd (fetchWeatherForecast sampleBrowser "Berlin" 601000 offline 601500
                               hamburgFetched) = ["Berlin"]
  /\ fetchWeatherForecast sampleBrowser "Berlin" 601000 offline 601500
                          berlinFetched = (berlinFetched, []).
Proof.
  assert (Hother : lastFetchedCity hamburgFetched <> Some "Berlin")
    by (vm_compute; discriminate).
  split; [|split].
  - apply (proj2 (cached_city_request sampleBrowser "Berlin"
                    (JObject marchPayload) 1000 initialState hamburgFetched
                    5000 offline 5500 eq_refl eq_refl) Hother).
    reflexivity.
  - apply (proj2 (cached_city_request sampleBrowser "Berlin"
                    (JObject marchPayload) 1000 initialState hamburgFetched
                    601000 offline 601500 eq_refl eq_refl) Hother).
    vm_compute. discriminate.
  - apply (proj1 (cached_city_request sampleBrowser "Berlin"
                    (JObject marchPayload) 1000 initialState berlinFetched
                    601000 offline 601500 eq_refl eq_refl)).
    reflexivity.
Defined.

Lemma repeated_request_at_most_one_call_witness :
  fetchWeatherForecast sampleBrowser "Berlin" 1500 marchResponse 2500
                       berlinFetched
  = (berlinFetched, []).
Proof.
  apply (proj1 (proj2 (repeated_request_at_most_one_call sampleBrowser
                         "Berlin" 0 marchResponse 1000 1500 marchResponse
                         2500 initialState))).
  reflexivity.
Defined.

Lemma payload_cached_on_success_status_witness :
  Dict.get "Berlin" (weatherCache shapelessFetched)
  = Some (mkCached 1000 shapeless)
  /\ fetchStart sampleBrowser "Berlin" 2000 shapelessFetched = Suppressed.
Proof.
  destruct (proj2 (payload_cached_on_success_status sampleBrowser "Berlin"
                     (Resolved true shapeless) 1000 requesting)
                  shapeless eq_refl eq_refl)
    as [Hcached [_ [_ Hlater]]].
  split; [exact Hcached|].
  apply (proj1 (Hlater shapelessFetched 2000 eq_refl eq_refl eq_refl)).
  reflexivity.
Defined.

Lemma resolved_city_name_witness :
  getCityName "52.520" "13.405" (GeoResolved twoResults) = "Berlin"
  /\ getCityName "52.391" "13.065" (GeoResolved cityOnly) = "Potsdam"
  /\ getCityName "0.000" "-30.000" (GeoResolved oceanBody) = "n.V."
  /\ getCityName "0.000" "-30.000" (GeoResolved noResult) = "n.V."
  /\ getCityName "0.000" "-30.000" (GeoResolved GNull)
     = "error fetching city name".
Proof.
  assert (Hberlin : "Berlin" <> "") by discriminate.
  split; [|split; [|split; [|split]]].
  - exact (proj1 (resolved_city_name "52.520" "13.405")
             (mkComponents (Some "Berlin") (Some "Mitte")) _ "Berlin"
             eq_refl Hberlin).
  - exact (proj1 (proj2 (resolved_city_name "52.391" "13.065"))
             (mkComponents None (Some "Potsdam")) [] "Potsdam"
             (or_introl eq_refl) eq_refl).
  - exact (proj1 (proj2 (proj2 (resolved_city_name "0.000" "-30.000")))
             (mkComponents None None) [] (or_introl eq_refl) eq_refl).
  - exact (proj1 (proj2 (proj2 (proj2 (proj2
             (resolved_city_name "0.000" "-30.000")))))).
  - exact (proj2 (proj2 (proj2 (proj2 (proj2 (proj2
             (resolved_city_name "0.000" "-30.000"))))))).
Defined.

Lemma non_web_mercator_click_ignored_witness :
  let st' := click toFixed3 v8Destructure (mkViewClickEvent (Some utmPoint))
                   (GeoResolved oceanBody) munich in
  warnings st' = [mkSpatialReference false 25832]
  /\ locationLatitude st' = Some "48.137"
  /\ locationLongitude st' = Some "11.575"
  /\ cityName st' = Some "München".
Proof.
  exact (proj2 (non_web_mercator_click_ignored toFixed3 v8Destructure utmPoint
                  (GeoResolved oceanBody) munich eq_refl)).
Defined.

(** ** Where the specification and the code part *)

(** C3: Berlin was fetched and stored at 1000 and is requested again
    more than ten minutes later; the guard returns first and no network
    call is made. *)
Lemma ttl_refetch_counterexample :
  ~ ttlAsSpecified sampleBrowser "Berlin" 1000 701000 marchResponse 701500
                   berlinFetched.
Proof.
  intros [_ Hstale]. specialize (Hstale eq_refl).
  vm_compute in Hstale. discriminate.
Qed.

(** C4: Berlin is cached since 1000 and Hamburg was fetched last.  The
    first of two calls for Berlin finds the payload one millisecond short
    of ten minutes old and processes it; the second call, one millisecond
    later, finds it stale and issues the request. *)
Lemma repeat_second_call_counterexample :
  ~ repeatAsSpecified sampleBrowser "Berlin" 600999 marchResponse 601500
                      601000 marchResponse 601500 hamburgFetched.
Proof.
  intros [_ Hsecond]. vm_compute in Hsecond. discriminate.
Qed.

(** C6: without a network the message shown is the one of the thrown
    TypeError, neither a server's message nor a generic one. *)
Lemma offline_message_counterexample :
  failed offline = true
  /\ ~ messageAsSpecified offline
        (fetchSettle sampleBrowser "Berlin" offline 1000 requesting).
Proof.
  split; [reflexivity|].
  intros [generic [Hgeneric Hmessage]]. vm_compute in Hmessage.
  injection Hmessage as <-.
  simpl in Hgeneric. intuition discriminate.
Qed.

(** A body of the wrong shape that carries a message: the fixed text is
    shown, not the server's message. *)
Lemma shapeless_message_not_shown :
  failed quotaNotice = true
  /\ serverMessage quotaNotice = Some "quota exceeded"
  /\ error (fetchSettle sampleBrowser "Berlin" quotaNotice 1000 requesting)
     = Some "Ungültige Wetterdaten erhalten".
Proof. repeat split. Qed.

(** C7: a normalized city name that is present but empty is passed over
    in favour of the city field. *)
Lemma empty_normalized_city_counterexample :
  getCityName "52.520" "13.405"
    (GeoResolved (GObject (Some [mkGeoResult (Some emptyNormalized)])))
  = "Berlin"
  /\ localityAsSpecified emptyNormalized = ""
  /\ getCityName "52.520" "13.405"
       (GeoResolved (GObject (Some [mkGeoResult (Some emptyNormalized)])))
     <> localityAsSpecified emptyNormalized.
Proof. split; [reflexivity|]. split; [reflexivity|]. discriminate. Qed.

(** Reading "present" as "not empty" instead fails on the city field: an
    empty city field is returned as it is, not replaced by "n.V.". *)
Lemma empty_city_field_returned :
  getCityName "52.520" "13.405"
    (GeoResolved
       (GObject (Some [mkGeoResult (Some (mkComponents None (Some "")))])))
  = "".
Proof. reflexivity. Qed.

(** C10: a body of the wrong shape is cached at 1000; the next request
    for the same city, within ten minutes, is stopped by the guard and
    the cached payload is not processed again. *)
Lemma shapeless_not_reprocessed_counterexample :
  Dict.get "Berlin" (weatherCache shapelessFetched)
  = Some (mkCached 1000 shapeless)
  /\ 2000 - 1000 < CACHE_DURATION
  /\ ~ reprocessedAsSpecified sampleBrowser "Berlin" 2000 shapelessFetched.
Proof.
  split; [reflexivity|]. split; [reflexivity|].
  intros [st' [Hstart _]]. vm_compute in Hstart. discriminate.
Qed.

(* ================================================================== *)
(** * Further properties of the forecast aggregator *)
(* ================================================================== *)

(** ** The buckets as a whole *)

Lemma filter_split_disjoint {A : Type} (p q : A -> bool) (l : list A) :
  (forall a, p a = true -> q a = false) ->
  Permutation (filter p l ++ filter q l) (filter (fun a => p a || q a) l).
Proof.
  intros Hdisjoint. induction l as [|a l IH]; simpl; [reflexivity|].
  destruct (p a) eqn:Hp; simpl.
  - rewrite (Hdisjoint a Hp). now apply perm_skip.
  - destruct (q a); [|exact IH].
    rewrite <- Permutation_middle. now apply perm_skip.
Qed.

Lemma keptOn_days_perm (browser : Browser) (entries : list WeatherEntry)
    (days : list string) :
  NoDup days ->
  Permutation
    (List.concat (map (fun day => keptOn browser day entries) days))
    (filter (fun e => existsb (String.eqb (dateKey browser e)) days
                      && wanted e) entries).
Proof.
  intros Hnd. induction days as [|day days IH]; simpl.
  - induction entries as [|e entries IHe]; simpl; [reflexivity | exact IHe].
  - inversion Hnd as [|? ? Hout Hnd']; subst.
    rewrite (IH Hnd'). unfold keptOn at 1.
    rewrite filter_split_disjoint.
    + apply Permutation_refl'. apply filter_ext. intros e.
      now destruct (String.eqb (dateKey browser e) day),
                   (existsb (String.eqb (dateKey browser e)) days),
                   (wanted e).
    + intros e He. apply andb_true_iff in He. destruct He as [Hday _].
      apply String.eqb_eq in Hday.
      destruct (existsb (String.eqb (dateKey browser e)) days) eqn:Hex;
        [|reflexivity].
      apply existsb_eqb_In in Hex. congruence.
Qed.

(** X1: taken together, the buckets hold exactly the raw entries that
    pass the hour filter, each of them once: nothing is lost and nothing
    is shown twice, whatever the order of the raw list. *)
Theorem buckets_partition_kept_entries (browser : Browser)
    (entries : list WeatherEntry) :
  Permutation
    (List.concat (map weatherEntries (dailyBuckets browser entries)))
    (filter wanted entries).
Proof.
  rewrite dailyBuckets_spec, map_map. simpl.
  rewrite keptOn_days_perm by apply firstSeen_NoDup.
  apply Permutation_refl'. apply filter_ext_in. intros e He.
  assert (Hin : In (dateKey browser e)
                   (firstSeen (map (dateKey browser) entries))).
  { apply firstSeen_In. now apply in_map. }
  apply existsb_eqb_In in Hin. now rewrite Hin.
Qed.

Lemma seeDate_head (days acc : list string) (d : string) :
  exists others, fold_left seeDate days (d :: acc) = d :: others.
Proof.
  revert acc. induction days as [|day days IH]; intros acc; simpl.
  - now exists acc.
  - unfold seeDate at 2.
    destruct (existsb (String.eqb day) (d :: acc)); [apply IH|].
    apply (IH (acc ++ [day])).
Qed.

(** X2: for a non-empty raw list, the first bucket is the one of the date
    of the first raw entry, the entry shown as current weather: the block
    of today holds the entries of that date at a target hour, and none of
    the following days has that date. *)
Theorem today_is_the_date_of_current_weather (browser : Browser)
    (first : WeatherEntry) (rest : list WeatherEntry) :
  let buckets := dailyBuckets browser (first :: rest) in
  exists today next,
    buckets = today :: next
    /\ date today = dateKey browser first
    /\ (forall entry,
           In entry (weatherEntries today) <->
           In entry (first :: rest)
           /\ dateKey browser entry = dateKey browser first
           /\ wanted entry = true)
    /\ (forall day, In day next -> date day <> dateKey browser first).
Proof.
  intros buckets. subst buckets. rewrite dailyBuckets_spec.
  assert (Hfirst : exists others,
             firstSeen (map (dateKey browser) (first :: rest))
             = dateKey browser first :: others).
  { unfold firstSeen. cbn [map fold_left]. unfold seeDate at 2.
    cbn [existsb app]. apply seeDate_head. }
  destruct Hfirst as [others Hfirst].
  pose proof (firstSeen_NoDup (map (dateKey browser) (first :: rest)))
    as Hnd.
  rewrite Hfirst in *. cbn [map].
  eexists. eexists. split; [reflexivity|]. cbn [date weatherEntries].
  split; [reflexivity|]. split.
  - intros entry. unfold keptOn. rewrite filter_In, andb_true_iff.
    rewrite String.eqb_eq. tauto.
  - intros day Hday Heq. apply in_map_iff in Hday.
    destruct Hday as [d [<- Hd]]. cbn [date] in Heq. subst d.
    inversion Hnd. contradiction.
Qed.

Lemma DateString_not_invalid (tv : Z) :
  JsDate.DateString tv <> "Invalid Date".
Proof.
  unfold JsDate.DateString.
  destruct (JsDate.civil (JsDate.Day tv)) as [[y m] d].
  assert (Hw : (Z.to_nat (JsDate.WeekDay tv) < 7)%nat).
  { unfold JsDate.WeekDay.
    pose proof (Z.mod_pos_bound (JsDate.Day tv + 4) 7). lia. }
  destruct (Z.to_nat (JsDate.WeekDay tv)) as [|[|[|[|[|[|[|n]]]]]]];
    try lia; simpl; discriminate.
Qed.

Lemma invalid_date_not_wanted (browser : Browser) (entry : WeatherEntry) :
  dateKey browser entry = "Invalid Date" -> wanted entry = false.
Proof.
  unfold dateKey, wanted.
  destruct (JsDate.make (dt entry * 1000)) as [tv|]; simpl; [|reflexivity].
  intros H. now apply DateString_not_invalid in H.
Qed.

(** X3: an entry whose time stamp is outside the range of a Date makes a
    bucket dated "Invalid Date"; this bucket is always empty, and the
    entry is shown in no bucket at all. *)
Theorem out_of_range_entry_gives_empty_bucket (browser : Browser)
    (entries : list WeatherEntry) (entry : WeatherEntry) :
  In entry entries ->
  JsDate.maxTime < Z.abs (dt entry * 1000) ->
  In (mkDailyWeather "Invalid Date" []) (dailyBuckets browser entries)
  /\ forall bucket,
       In bucket (dailyBuckets browser entries) ->
       ~ In entry (weatherEntries bucket).
Proof.
  intros Hin Hrange.
  assert (Hmake : JsDate.make (dt entry * 1000) = None).
  { unfold JsDate.make, JsDate.TimeClip.
    destruct (Z.abs (dt entry * 1000) <=? JsDate.maxTime) eqn:E;
      [lia | reflexivity]. }
  assert (Hkey : dateKey browser entry = "Invalid Date")
    by (unfold dateKey; now rewrite Hmake).
  split.
  - rewrite dailyBuckets_spec. apply in_map_iff. exists "Invalid Date".
    split.
    + f_equal. unfold keptOn.
      destruct (filter _ entries) as [|e es] eqn:F; [reflexivity|].
      assert (He : In e (e :: es)) by now left.
      rewrite <- F in He. apply filter_In in He. destruct He as [_ He].
      apply andb_true_iff in He. destruct He as [Hday Hw].
      apply String.eqb_eq in Hday.
      rewrite (invalid_date_not_wanted browser e Hday) in Hw. discriminate.
    + apply firstSeen_In. rewrite <- Hkey. now apply in_map.
  - intros bucket Hb He. apply dailyBuckets_In in Hb. destruct Hb as [_ Hb].
    rewrite Hb in He. apply filter_In in He. destruct He as [_ He].
    apply andb_true_iff in He. destruct He as [_ Hw].
    rewrite (invalid_date_not_wanted browser entry Hkey) in Hw. discriminate.
Qed.

(** ** Requests, the guard and the display *)

Lemma fetchStart_requested (browser : Browser) (cityName : string) (now : Z)
    (st : State) :
  truthy cityName = true ->
  lastFetchedCity st <> Some cityName ->
  noFreshPayload cityName now st ->
  fetchStart browser cityName now st
  = Requested (mkState (locationInfoData st) (completeWeatherData st)
                       (dailyWeatherData st) true None (Some cityName)
                       (weatherCache st)).
Proof.
  intros Ht Hlast Hstale.
  destruct (Dict.get cityName (weatherCache st)) as [cached|] eqn:Hget.
  - apply (fetchStart_stale browser _ _ _ cached Ht Hlast Hget).
    now apply Hstale.
  - apply isLast_false in Hlast. unfold fetchStart.
    rewrite Ht. fold (isLast cityName st). now rewrite Hlast, Hget.
Qed.

Lemma processWeatherData_valid (browser : Browser) (message : option JsonValue)
    (entries : list WeatherEntry) (place : City) (display : string)
    (st : State) :
  countryDisplayName browser (city_country place) = inl display ->
  processWeatherData browser
    (JObject (mkPayload message (Some entries) (Some place))) st
  = (mkState (Some (mkLocationInfo (city_name place) display)) entries
             (dailyBuckets browser entries) (isLoading st) (error st)
             (lastFetchedCity st) (weatherCache st), None).
Proof. intros Hdisplay. simpl. now rewrite Hdisplay. Qed.

Lemma dailyBuckets_first (browser : Browser) (first : WeatherEntry)
    (rest : list WeatherEntry) :
  dailyBuckets browser (first :: rest)
  = mkDailyWeather (dateKey browser first)
                   (keptOn browser (dateKey browser first) (first :: rest))
    :: tl (dailyBuckets browser (first :: rest)).
Proof.
  rewrite dailyBuckets_spec.
  assert (Hfirst : exists others,
             firstSeen (map (dateKey browser) (first :: rest))
             = dateKey browser first :: others).
  { unfold firstSeen. cbn [map fold_left]. unfold seeDate at 2.
    cbn [existsb app]. apply seeDate_head. }
  destruct Hfirst as [others ->]. reflexivity.
Qed.

(** X4: when the response of a request arrives with a success status, a
    list, a city and a region code the browser accepts, the continuation
    stores the raw list, the buckets and the location, caches the payload
    under the requested name with the current time and turns the loading
    flag off, in whatever state the component is by then; the error
    message and the last fetched city stay what they are at that moment.
    If no error message is set then, the template renders the forecast:
    the first raw entry as current weather, the kept entries of its date
    as today and the other buckets as the following days; for an empty
    list it renders "no data". *)
Theorem successful_request_loads_forecast (browser : Browser)
    (cityName : string) (settled : Z) (st : State)
    (message : option JsonValue) (entries : list WeatherEntry) (place : City)
    (display : string) :
  countryDisplayName browser (city_country place) = inl display ->
  let body := JObject (mkPayload message (Some entries) (Some place)) in
  let location := mkLocationInfo (city_name place) display in
  let st' := fetchSettle browser cityName (Resolved true body) settled st in
  st'
  = mkState (Some location) entries (dailyBuckets browser entries) false
            (error st) (lastFetchedCity st)
            (Dict.set cityName (mkCached settled body) (weatherCache st))
  /\ (inErrorState st = false ->
      view st'
      = match entries with
        | [] => EmptyView
        | first :: _ =>
            ForecastView location (Some first)
              (keptOn browser (dateKey browser first) entries)
              (tl (dailyBuckets browser entries))
        end).
Proof.
  intros Hdisplay body location st'.
  assert (Hsettled : st'
    = mkState (Some location) entries (dailyBuckets browser entries) false
              (error st) (lastFetchedCity st)
              (Dict.set cityName (mkCached settled body) (weatherCache st))).
  { subst st'. unfold fetchSettle. subst body.
    now rewrite (processWeatherData_valid browser _ _ _ _ _ Hdisplay). }
  split; [exact Hsettled|].
  intros Hquiet. rewrite Hsettled. unfold view.
  cbn [isLoading error completeWeatherData locationInfoData].
  assert (Hdata :
    match error st with
    | Some shown =>
        if truthy shown then ErrorView shown
        else match entries with
             | [] => EmptyView
             | first :: _ =>
                 ForecastView location (Some first)
                   (keptOn browser (dateKey browser first) entries)
                   (tl (dailyBuckets browser entries))
             end
    | None =>
        match entries with
        | [] => EmptyView
        | first :: _ =>
            ForecastView location (Some first)
              (keptOn browser (dateKey browser first) entries)
              (tl (dailyBuckets browser entries))
        end
    end
    = match entries with
      | [] => EmptyView
      | first :: _ =>
          ForecastView location (Some first)
            (keptOn browser (dateKey browser first) entries)
            (tl (dailyBuckets browser entries))
      end).
  { unfold inErrorState in Hquiet.
    destruct (error st) as [shown|]; [now rewrite Hquiet | reflexivity]. }
  rewrite <- Hdata.
  destruct entries as [|first rest].
  - reflexivity.
  - unfold currentWeather, todayBlocks, nextDays.
    cbn [completeWeatherData dailyWeatherData].
    pose proof (dailyBuckets_first browser first rest) as Hfirst.
    destruct (dailyBuckets browser (first :: rest)) as [|today next];
      [discriminate Hfirst|].
    injection Hfirst as Htoday. now rewrite Htoday.
Qed.

(** X5: a call issues a network request exactly when the name is not
    empty, is not the city fetched last and has no cached payload less
    than ten minutes old; the request is for that name, and the last
    fetched city changes only with it. *)
Theorem network_request_exactly_when (browser : Browser) (cityName : string)
    (now : Z) (outcome : FetchOutcome) (settled : Z) (st : State) :
  let result :=
    fetchWeatherForecast browser cityName now outcome settled st in
  (snd result = [cityName] <->
   truthy cityName = true
   /\ lastFetchedCity st <> Some cityName
   /\ noFreshPayload cityName now st)
  /\ (snd result <> [cityName] ->
      snd result = [] /\ lastFetchedCity (fst result) = lastFetchedCity st)
  /\ (snd result = [cityName] ->
      lastFetchedCity (fst result) = Some cityName).
Proof.
  intros result.
  destruct (fetchWeatherForecast_cases browser cityName now outcome settled
              st)
    as [[Hskip H1]|[[Ht [Hlast [cached [Hget [Hfresh H1]]]]]
                   |[Ht [Hlast [Hcalls Hlast1]]]]];
    fold result in H1 || fold result in Hcalls, Hlast1.
  - rewrite H1. simpl. split; [|split].
    + split; [discriminate|]. intros [Ht [Hlast _]].
      destruct Hskip; congruence.
    + tauto.
    + discriminate.
  - pose proof (processWeatherData_frame browser (data cached) st)
      as [_ [Hl _]].
    rewrite H1. simpl. split; [|split].
    + split; [discriminate|]. intros [_ [_ Hstale]].
      specialize (Hstale cached Hget). lia.
    + tauto.
    + discriminate.
  - split; [|split].
    + split; [|tauto]. intros _. split; [exact Ht|]. split; [exact Hlast|].
      intros cached Hget.
      destruct (Z_lt_ge_dec (now - timestamp cached) CACHE_DURATION)
        as [Hfresh|Hstale]; [|lia].
      exfalso. subst result. unfold fetchWeatherForecast in Hcalls.
      rewrite (fetchStart_fresh browser _ _ _ _ Ht Hlast Hget Hfresh)
        in Hcalls.
      discriminate.
    + tauto.
    + tauto.
Qed.

(** X6: a call served from the cache loads the cached forecast but leaves
    the error message, the loading flag and the last fetched city as they
    were: after a failure, the template keeps rendering the old error
    although the forecast of the cached city is loaded. *)
Theorem cache_hit_keeps_error (browser : Browser) (cityName : string)
    (now : Z) (outcome : FetchOutcome) (settled : Z) (st : State)
    (stored : Z) (message : option JsonValue) (entries : list WeatherEntry)
    (place : City) (display : string) :
  truthy cityName = true ->
  lastFetchedCity st <> Some cityName ->
  Dict.get cityName (weatherCache st)
  = Some (mkCached stored
            (JObject (mkPayload message (Some entries) (Some place)))) ->
  now - stored < CACHE_DURATION ->
  countryDisplayName browser (city_country place) = inl display ->
  let result :=
    fetchWeatherForecast browser cityName now outcome settled st in
  result
  = (mkState (Some (mkLocationInfo (city_name place) display)) entries
             (dailyBuckets browser entries) (isLoading st) (error st)
             (lastFetchedCity st) (weatherCache st), [])
  /\ (forall shown,
         isLoading st = false ->
         error st = Some shown ->
         truthy shown = true ->
         view (fst result) = ErrorView shown).
Proof.
  intros Ht Hlast Hget Hfresh Hdisplay result.
  assert (Hresult : result
    = (mkState (Some (mkLocationInfo (city_name place) display)) entries
               (dailyBuckets browser entries) (isLoading st) (error st)
               (lastFetchedCity st) (weatherCache st), [])).
  { subst result. unfold fetchWeatherForecast.
    rewrite (fetchStart_fresh browser _ _ _ _ Ht Hlast Hget Hfresh).
    cbn [data].
    now rewrite (processWeatherData_valid browser _ _ _ _ _ Hdisplay). }
  split; [exact Hresult|].
  intros shown Hloading Herror Hshown. rewrite Hresult.
  unfold view. cbn [fst isLoading error]. now rewrite Hloading, Herror, Hshown.
Qed.

(** X7: a cache hit does not make the city the last fetched one.  When
    the forecast of a cached city is loaded while another city is the
    last fetched one, a following call for that other city does nothing
    at all: the state stays as it is and still holds the forecast of the
    cached city. *)
Theorem request_after_cache_hit_is_ignored (browser : Browser)
    (cityName other : string) (now : Z) (outcome : FetchOutcome)
    (settled : Z) (st : State) (stored : Z) (message : option JsonValue)
    (entries : list WeatherEntry) (place : City) (display : string)
    (now' : Z) (outcome' : FetchOutcome) (settled' : Z) :
  truthy cityName = true ->
  lastFetchedCity st = Some other ->
  other <> cityName ->
  Dict.get cityName (weatherCache st)
  = Some (mkCached stored
            (JObject (mkPayload message (Some entries) (Some place)))) ->
  now - stored < CACHE_DURATION ->
  countryDisplayName browser (city_country place) = inl display ->
  let shown :=
    fst (fetchWeatherForecast browser cityName now outcome settled st) in
  fetchWeatherForecast browser other now' outcome' settled' shown
  = (shown, [])
  /\ completeWeatherData shown = entries
  /\ locationInfoData shown
     = Some (mkLocationInfo (city_name place) display).
Proof.
  intros Ht Hlast Hother Hget Hfresh Hdisplay shown.
  assert (Hshown : shown
    = mkState (Some (mkLocationInfo (city_name place) display)) entries
              (dailyBuckets browser entries) (isLoading st) (error st)
              (lastFetchedCity st) (weatherCache st)).
  { assert (Hlast' : lastFetchedCity st <> Some cityName)
      by (rewrite Hlast; congruence).
    subst shown. unfold fetchWeatherForecast.
    rewrite (fetchStart_fresh browser _ _ _ _ Ht Hlast' Hget Hfresh).
    cbn [data].
    now rewrite (processWeatherData_valid browser _ _ _ _ _ Hdisplay). }
  split; [|now rewrite Hshown].
  unfold fetchWeatherForecast, fetchStart.
  destruct (truthy other); [|reflexivity]. cbn [negb].
  rewrite Hshown at 1. cbn [lastFetchedCity]. rewrite Hlast.
  now rewrite String.eqb_refl.
Qed.

(** X8: when the browser rejects the region code of the response (as it
    does for an empty code), a request that went to the network ends in
    the Error state with the browser's message and empty collections,
    but the payload is cached all the same.  Served from the cache
    later, the same payload makes the call throw after the lists were
    loaded, so that the location on display is still the previous one. *)
Theorem rejected_region_code (browser : Browser) (cityName : string)
    (message : option JsonValue) (entries : list WeatherEntry) (place : City)
    (reason : string) :
  truthy cityName = true ->
  regionName browser (city_country place) = OfRangeError reason ->
  let body := JObject (mkPayload message (Some entries) (Some place)) in
  (forall now settled st,
      lastFetchedCity st <> Some cityName ->
      noFreshPayload cityName now st ->
      fetchWeatherForecast browser cityName now (Resolved true body) settled
                           st
      = (mkState None [] [] false (Some reason) (Some cityName)
                 (Dict.set cityName (mkCached settled body)
                           (weatherCache st)),
         [cityName]))
  /\ (forall now stored st,
         lastFetchedCity st <> Some cityName ->
         Dict.get cityName (weatherCache st) = Some (mkCached stored body) ->
         now - stored < CACHE_DURATION ->
         fetchStart browser cityName now st
         = FromCache
             (mkState (locationInfoData st) entries
                      (dailyBuckets browser entries) (isLoading st)
                      (error st) (lastFetchedCity st) (weatherCache st))
             (Some (ThrownError reason))).
Proof.
  intros Ht Hregion body.
  assert (Hthrows : forall st,
    processWeatherData browser body st
    = (mkState (locationInfoData st) entries (dailyBuckets browser entries)
               (isLoading st) (error st) (lastFetchedCity st)
               (weatherCache st), Some (ThrownError reason))).
  { intros st. subst body. simpl. unfold countryDisplayName.
    now rewrite Hregion. }
  split.
  - intros now settled st Hlast Hstale. unfold fetchWeatherForecast.
    rewrite (fetchStart_requested browser _ _ _ Ht Hlast Hstale).
    unfold fetchSettle. now rewrite Hthrows.
  - intros now stored st Hlast Hget Hfresh.
    rewrite (fetchStart_fresh browser _ _ _ _ Ht Hlast Hget Hfresh).
    cbn [data]. now rewrite Hthrows.
Qed.

(** ** Runs of the component *)

Lemma cleanupCache_lastFetchedCity (st : State) :
  lastFetchedCity (cleanupCache st) = lastFetchedCity st.
Proof.
  unfold cleanupCache.
  now destruct (Dict.size (weatherCache st) >? 10).
Qed.

Lemma step_log (browser : Browser) (ev : Event) (st : State) :
  (snd (step browser ev st) = []
   /\ lastFetchedCity (fst (step browser ev st)) = lastFetchedCity st)
  \/ exists name,
       snd (step browser ev st) = [name]
       /\ truthy name = true
       /\ lastFetchedCity st <> Some name
       /\ lastFetchedCity (fst (step browser ev st)) = Some name.
Proof.
  destruct ev as [cityName now outcome settled|]; cbn [step].
  - destruct (fetchWeatherForecast_cases browser cityName now outcome
                settled st)
      as [[_ H1]|[[_ [_ [cached [_ [_ H1]]]]]|[Ht [Hlast [Hcalls Hlast1]]]]].
    + left. rewrite H1. now split.
    + left. rewrite H1. split; [reflexivity|].
      apply (processWeatherData_frame browser (data cached) st).
    + right. now exists cityName.
  - left. split; [reflexivity | apply cleanupCache_lastFetchedCity].
Qed.

Lemma run_cons (browser : Browser) (ev : Event) (evs : list Event)
    (st : State) :
  run browser (ev :: evs) st
  = (fst (run browser evs (fst (step browser ev st))),
     snd (step browser ev st)
     ++ snd (run browser evs (fst (step browser ev st)))).
Proof.
  simpl. destruct (step browser ev st) as [st1 calls1]. simpl.
  now destruct (run browser evs st1).
Qed.

(** X9: in the requests a run of the component sends to the network, no
    city follows itself and the first city is not the one that was last
    fetched before the run; every request is for a non-empty name, and
    the last fetched city after the run is the last city requested. *)
Theorem network_log_never_repeats (browser : Browser) (evs : list Event)
    (st : State) :
  let log := snd (run browser evs st) in
  noRepeat (lastFetchedCity st) log
  /\ Forall (fun name => truthy name = true) log
  /\ lastFetchedCity (fst (run browser evs st))
     = lastOf (lastFetchedCity st) log.
Proof.
  revert st. induction evs as [|ev evs IH]; intros st log.
  - repeat split. constructor.
  - subst log. rewrite run_cons. cbn [fst snd].
    specialize (IH (fst (step browser ev st))).
    cbv zeta in IH. destruct IH as [Hrepeat [Hnames Hlast]].
    destruct (step_log browser ev st)
      as [[Hcalls Hsame]|[name [Hcalls [Ht [Hnew Hnow]]]]];
      rewrite Hcalls; cbn [app].
    + rewrite Hsame in Hrepeat, Hlast. now repeat split.
    + rewrite Hnow in Hrepeat, Hlast. repeat split; try assumption.
      now constructor.
Qed.

Lemma dict_set_keys_incl {V : Type} (k k0 : string) (v : V) (m : Dict.t V) :
  In k (Dict.keys (Dict.set k0 v m)) -> k = k0 \/ In k (Dict.keys m).
Proof.
  destruct (in_dec string_dec k0 (Dict.keys m)) as [Hin|Hout].
  - rewrite dict_keys_set_present by exact Hin. tauto.
  - rewrite dict_keys_set_absent by exact Hout.
    rewrite in_app_iff. simpl. intuition.
Qed.

Lemma dict_of_entries_keys_incl {V : Type} (k : string)
    (entries : list (string * V)) :
  In k (Dict.keys (Dict.of_entries entries)) -> In k (map fst entries).
Proof.
  unfold Dict.of_entries.
  assert (H : forall acc : Dict.t V,
             In k (Dict.keys
                     (fold_left (fun m kv => Dict.set (fst kv) (snd kv) m)
                                entries acc)) ->
             In k (Dict.keys acc) \/ In k (map fst entries)).
  { induction entries as [|[k0 v0] entries IH]; intros acc Hin; simpl in *.
    - now left.
    - apply IH in Hin. destruct Hin as [Hin|Hin]; [|tauto].
      apply dict_set_keys_incl in Hin. intuition. }
  intros Hin. apply H in Hin. destruct Hin as [[]|Hin]. exact Hin.
Qed.

Lemma cleanupCache_keys_incl (st : State) (k : string) :
  In k (Dict.keys (weatherCache (cleanupCache st))) ->
  In k (Dict.keys (weatherCache st)).
Proof.
  unfold cleanupCache.
  destruct (Dict.size (weatherCache st) >? 10); [|tauto].
  cbn [weatherCache]. intros Hin. apply dict_of_entries_keys_incl in Hin.
  apply in_map_iff in Hin. destruct Hin as [kv [<- Hin]].
  apply firstn_In in Hin.
  apply (Permutation_in _ (Permutation_sym (sortRecent_perm _))) in Hin.
  now apply in_map.
Qed.

Lemma fetchWeatherForecast_keys_incl (browser : Browser) (cityName : string)
    (now : Z) (outcome : FetchOutcome) (settled : Z) (st : State)
    (k : string) :
  In k (Dict.keys
          (weatherCache
             (fst (fetchWeatherForecast browser cityName now outcome settled
                                        st)))) ->
  In k (Dict.keys (weatherCache st))
  \/ In k (snd (fetchWeatherForecast browser cityName now outcome settled st)).
Proof.
  unfold fetchWeatherForecast, fetchStart.
  destruct (negb (truthy cityName)); [now left|].
  destruct (match lastFetchedCity st with
            | Some last => String.eqb cityName last
            | None => false
            end); [now left|].
  assert (Hrequest : forall st1,
    weatherCache st1 = weatherCache st ->
    In k (Dict.keys
            (weatherCache (fetchSettle browser cityName outcome settled st1)))
    -> In k (Dict.keys (weatherCache st)) \/ In k [cityName]).
  { intros st1 Hsame. rewrite fetchSettle_weatherCache, Hsame.
    destruct outcome as [err|ok err|[|] body]; try tauto.
    intros Hin. apply dict_set_keys_incl in Hin. simpl. intuition. }
  destruct (Dict.get cityName (weatherCache st)) as [cached|];
    [|now apply Hrequest].
  destruct (now - timestamp cached <? CACHE_DURATION); [|now apply Hrequest].
  pose proof (processWeatherData_frame browser (data cached) st)
    as [_ [_ Hc]].
  destruct (processWeatherData browser (data cached) st) as [st1 thrown].
  simpl in *. rewrite Hc. tauto.
Qed.

(** X10: the cache never holds a city out of nowhere: after a run, every
    cached city was cached before the run or is a city the run sent a
    network request for. *)
Theorem cached_cities_were_requested (browser : Browser) (evs : list Event)
    (st : State) (name : string) :
  In name (Dict.keys (weatherCache (fst (run browser evs st)))) ->
  In name (Dict.keys (weatherCache st))
  \/ In name (snd (run browser evs st)).
Proof.
  revert st. induction evs as [|ev evs IH]; intros st Hin.
  - now left.
  - rewrite run_cons in *. cbn [fst snd] in *.
    apply IH in Hin. rewrite in_app_iff.
    destruct Hin as [Hin|Hin]; [|tauto].
    destruct ev as [cityName now outcome settled|]; cbn [step] in *.
    + apply fetchWeatherForecast_keys_incl in Hin. tauto.
    + cbn [fst snd] in *. apply cleanupCache_keys_incl in Hin. tauto.
Qed.

(** ** More on the sweep *)

Lemma dict_set_length {V : Type} (k : string) (v : V) (m : Dict.t V) :
  (List.length (Dict.set k v m) <= S (List.length m))%nat.
Proof.
  induction m as [|[k' v'] m IH]; simpl; [lia|].
  destruct (String.eqb k' k); simpl; lia.
Qed.

Lemma dict_of_entries_length {V : Type} (entries : list (string * V)) :
  (List.length (Dict.of_entries entries) <= List.length entries)%nat.
Proof.
  unfold Dict.of_entries.
  assert (H : forall acc : Dict.t V,
    (List.length (fold_left (fun m kv => Dict.set (fst kv) (snd kv) m)
                            entries acc)
     <= List.length acc + List.length entries)%nat).
  { induction entries as [|kv entries IH]; intros acc; simpl; [lia|].
    specialize (IH (Dict.set (fst kv) (snd kv) acc)).
    pose proof (dict_set_length (fst kv) (snd kv) acc). lia. }
  apply (H []).
Qed.

(** X11: whatever the cache looks like, it holds at most ten entries
    after a sweep, a second sweep right after changes nothing more, and
    a sweep touches nothing but the cache. *)
Theorem sweep_bounds_the_cache (st : State) :
  Dict.size (weatherCache (cleanupCache st)) <= 10
  /\ cleanupCache (cleanupCache st) = cleanupCache st
  /\ mkState (locationInfoData st) (completeWeatherData st)
             (dailyWeatherData st) (isLoading st) (error st)
             (lastFetchedCity st) (weatherCache (cleanupCache st))
     = cleanupCache st.
Proof.
  assert (Hsize : Dict.size (weatherCache (cleanupCache st)) <= 10).
  { unfold cleanupCache.
    destruct (Dict.size (weatherCache st) >? 10) eqn:E; [|lia].
    cbn [weatherCache]. unfold Dict.size.
    pose proof (dict_of_entries_length
                  (firstn 5 (sortRecent (weatherCache st)))) as Hle.
    pose proof (firstn_le_length 5 (sortRecent (weatherCache st))). lia. }
  split; [exact Hsize|]. split.
  - unfold cleanupCache at 1.
    destruct (Dict.size (weatherCache (cleanupCache st)) >? 10) eqn:E;
      [lia | reflexivity].
  - unfold cleanupCache.
    destruct (Dict.size (weatherCache st) >? 10); [reflexivity|].
    now destruct st.
Qed.

(** X12: the sweep does not look at the age of an entry.  When the cache
    holds more than ten cities and five of them were stored after a
    given city, the sweep drops that city, however recently it was
    stored; unless it is the last fetched city, the next call for it
    goes to the network again. *)
Theorem sweep_evicts_regardless_of_age (browser : Browser) (st : State)
    (cityName : string) (cached : Cached) (newer : list (string * Cached))
    (now : Z) (outcome : FetchOutcome) (settled : Z) :
  NoDup (Dict.keys (weatherCache st)) ->
  Dict.size (weatherCache st) > 10 ->
  Dict.get cityName (weatherCache st) = Some cached ->
  NoDup newer ->
  List.length newer = 5%nat ->
  (forall entry,
      In entry newer ->
      In entry (weatherCache st)
      /\ timestamp cached < timestamp (snd entry)) ->
  Dict.get cityName (weatherCache (cleanupCache st)) = None
  /\ (truthy cityName = true ->
      lastFetchedCity st <> Some cityName ->
      snd (fetchWeatherForecast browser cityName now outcome settled
                                (cleanupCache st)) = [cityName]).
Proof.
  intros Hkeys Hsize Hget Hnd Hfive Hnewer.
  assert (Hgone :
    Dict.get cityName (weatherCache (cleanupCache st)) = None).
  { rewrite (cleanupCache_overflow st Hkeys Hsize).
    pose proof (sortRecent_perm (weatherCache st)) as Hperm.
    pose proof (sortRecent_sorted (weatherCache st)) as Hsorted.
    set (sorted := sortRecent (weatherCache st)) in *.
    destruct (Dict.get cityName (firstn 5 sorted)) as [kept|] eqn:Hkept;
      [exfalso | reflexivity].
    apply dict_get_In in Hkept.
    assert (Hsame : kept = cached).
    { apply firstn_In in Hkept.
      apply (Permutation_in _ (Permutation_sym Hperm)) in Hkept.
      apply (dict_In_get _ _ _ Hkeys) in Hkept. congruence. }
    subst kept.
    assert (Hincl : incl ((cityName, cached) :: newer) (firstn 5 sorted)).
    { intros entry [<-|Hentry]; [exact Hkept|].
      destruct (Hnewer entry Hentry) as [Hin Hlater].
      apply (Permutation_in _ Hperm) in Hin.
      rewrite <- (firstn_skipn 5 sorted) in Hin, Hsorted.
      apply in_app_or in Hin. destruct Hin as [Hin|Hin]; [exact Hin|].
      pose proof (sorted_prefix_dominates notOlder _ _ Hsorted
                    (cityName, cached) entry Hkept Hin) as Hle.
      unfold notOlder in Hle. simpl in Hle. lia. }
    assert (Hnd6 : NoDup ((cityName, cached) :: newer)).
    { constructor; [|exact Hnd]. intros Hin.
      destruct (Hnewer _ Hin) as [_ Hlater]. simpl in Hlater. lia. }
    pose proof (NoDup_incl_length Hnd6 Hincl) as Hlen.
    pose proof (firstn_le_length 5 sorted) as Hfirst.
    change (S (List.length newer) <= List.length (firstn 5 sorted))%nat
      in Hlen.
    lia. }
  split; [exact Hgone|].
  intros Ht Hlast. unfold fetchWeatherForecast.
  rewrite fetchStart_requested; [reflexivity | exact Ht | |].
  - now rewrite cleanupCache_lastFetchedCity.
  - intros other Hother. congruence.
Qed.

(* ================================================================== *)
(** * Further properties of the location resolver *)
(* ================================================================== *)

(** X13: a click on a Web Mercator point with a missing coordinate, or
    with a coordinate that is exactly zero (the equator, the prime
    meridian), sets both fields to "n.V." and records no warning.  The
    place name is not reset: when a field changed, it becomes whatever
    the geocoder answers to the query "n.V.,n.V.". *)
Theorem unavailable_coordinate_click (toFixed3 : Q -> string)
    (destructureMessage : string) (point : MapPoint) (outcome : GeoOutcome)
    (st : Resolver) :
  isWebMercator (spatialReference point) = true ->
  noCoordinate (latitude point) || noCoordinate (longitude point) = true ->
  let st' :=
    click toFixed3 destructureMessage (mkViewClickEvent (Some point)) outcome
          st in
  locationLatitude st' = Some "n.V."
  /\ locationLongitude st' = Some "n.V."
  /\ warnings st' = warnings st
  /\ cityName st'
     = if sameField (locationLatitude st) (Some "n.V.")
          && sameField (locationLongitude st) (Some "n.V.")
       then cityName st
       else Some (getCityName "n.V." "n.V." outcome).
Proof.
  intros Hmercator Hmissing st'.
  assert (Hclick :
    onViewClick toFixed3 destructureMessage (mkViewClickEvent (Some point)) st
    = (mkResolver (Some "n.V.") (Some "n.V.") (cityName st) (warnings st),
       None)).
  { unfold onViewClick. cbn [mapPoint]. rewrite Hmercator. cbn [negb].
    destruct (latitude point) as [lat|], (longitude point) as [lon|];
      try reflexivity.
    now rewrite Hmissing. }
  subst st'. unfold click. rewrite Hclick.
  cbn [fst locationLatitude locationLongitude].
  destruct (sameField (locationLatitude st) (Some "n.V.")
            && sameField (locationLongitude st) (Some "n.V."));
    repeat split.
Qed.

(** X14: clicking the same Web Mercator point again changes nothing: the
    coordinate fields keep their values, so the watcher does not run and
    the place name stays what the first click resolved, whatever the
    geocoder would answer the second time. *)
Theorem click_same_point_again (toFixed3 : Q -> string)
    (destructureMessage : string) (point : MapPoint)
    (first second : GeoOutcome) (st : Resolver) :
  isWebMercator (spatialReference point) = true ->
  let event := mkViewClickEvent (Some point) in
  click toFixed3 destructureMessage event second
        (click toFixed3 destructureMessage event first st)
  = click toFixed3 destructureMessage event first st.
Proof.
  intros Hmercator event.
  assert (Hclick : exists lat lon,
    forall st0,
      onViewClick toFixed3 destructureMessage event st0
      = (mkResolver (Some lat) (Some lon) (cityName st0) (warnings st0),
         None)).
  { unfold onViewClick. subst event. cbn [mapPoint]. rewrite Hmercator.
    cbn [negb].
    destruct (latitude point) as [lat|], (longitude point) as [lon|];
      try (exists "n.V.", "n.V."; reflexivity).
    destruct (noCoordinate (Some lat) || noCoordinate (Some lon));
      eexists; eexists; reflexivity. }
  destruct Hclick as [lat [lon Hclick]].
  assert (Hfields : forall outcome st0,
    locationLatitude (click toFixed3 destructureMessage event outcome st0)
    = Some lat
    /\ locationLongitude (click toFixed3 destructureMessage event outcome st0)
       = Some lon).
  { intros outcome st0. unfold click. rewrite Hclick.
    cbn [fst locationLatitude locationLongitude].
    destruct (sameField (locationLatitude st0) (Some lat)
              && sameField (locationLongitude st0) (Some lon));
      split; reflexivity. }
  destruct (Hfields first st) as [Hlat Hlon].
  set (st1 := click toFixed3 destructureMessage event first st) in *.
  unfold click at 1. rewrite Hclick.
  cbn [fst locationLatitude locationLongitude].
  rewrite Hlat, Hlon, !sameField_refl. cbn [andb].
  destruct st1 as [lat1 lon1 name1 warnings1]. simpl in *. congruence.
Qed.

(* ================================================================== *)
(** * The two components together *)
(* ================================================================== *)

(** X15: the watcher of the forecast component takes every non-empty
    place name for a city.  When geocoding fails, the text
    "error fetching city name" is sent to the forecast service as a city
    name, and for a point without a settlement the text "n.V." is,
    unless the guard or the cache answers for that name. *)
Theorem sentinel_names_are_requested (browser : Browser) (lat lon : string)
    (geo : GeoOutcome) (now : Z) (outcome : FetchOutcome) (settled : Z)
    (st : State) :
  let name := getCityName lat lon geo in
  let calls :=
    snd (watchEffect browser (Some name) now outcome settled st) in
  lastFetchedCity st <> Some name ->
  noFreshPayload name now st ->
  match geo with
  | GeoResolved body =>
      match componentsOf body with
      | Some c =>
          noNormalizedCity c -> city c = None -> calls = ["n.V."]
      | None => calls = ["error fetching city name"]
      end
  | _ => calls = ["error fetching city name"]
  end.
Proof.
  intros name calls Hlast Hstale.
  assert (Hcalls : truthy name = true -> calls = [name]).
  { intros Ht. subst calls. unfold watchEffect. rewrite Ht.
    unfold fetchWeatherForecast.
    now rewrite (fetchStart_requested browser _ _ _ Ht Hlast Hstale). }
  subst name. destruct geo as [reason|reason|body]; cbn [getCityName] in *.
  - now apply Hcalls.
  - now apply Hcalls.
  - destruct (componentsOf body) as [c|]; [|now apply Hcalls].
    intros Hnone Hcity.
    assert (Hname : localityOf c = "n.V.").
    { unfold localityOf, js_or. rewrite Hcity.
      destruct Hnone as [-> | ->]; reflexivity. }
    rewrite Hname in *. now apply Hcalls.
Qed.

(* ================================================================== *)
(** * The further properties at work *)
(* ================================================================== *)

Lemma out_of_range_entry_gives_empty_bucket_witness :
  In (mkDailyWeather "Invalid Date" [])
     (dailyBuckets sampleBrowser (strayEntry :: marchEntries)).
Proof.
  assert (Hin : In strayEntry (strayEntry :: marchEntries))
    by (left; reflexivity).
  assert (Hrange : JsDate.maxTime < Z.abs (dt strayEntry * 1000))
    by reflexivity.
  exact (proj1 (out_of_range_entry_gives_empty_bucket sampleBrowser
                  (strayEntry :: marchEntries) strayEntry Hin Hrange)).
Defined.

(** Two requests that overlap: the one for Hamburg starts while the one
    for Berlin is in flight. *)
Example overlapping_requests :
  fetchStart sampleBrowser "Berlin" 0 initialState = Requested requesting
  /\ fetchStart sampleBrowser "Hamburg" 500 requesting
     = Requested hamburgRequested.
Proof. split; reflexivity. Qed.

Lemma successful_request_loads_forecast_witness :
  let st' := fetchSettle sampleBrowser "Berlin" marchResponse 1000
                         hamburgRequested in
  completeWeatherData st' = marchEntries
  /\ lastFetchedCity st' = Some "Hamburg"
  /\ Dict.get "Berlin" (weatherCache st')
     = Some (mkCached 1000 (JObject marchPayload))
  /\ view st'
     = ForecastView (mkLocationInfo "Berlin" "Deutschland")
         (Some (entryAt 1709262000))
         [entryAt 1709272800; entryAt 1709294400; entryAt 1709316000;
          entryAt 1709326800]
         [mkDailyWeather "Sat Mar 02 2024" []].
Proof.
  destruct (successful_request_loads_forecast sampleBrowser "Berlin" 1000
              hamburgRequested None marchEntries berlin "Deutschland"
              eq_refl) as [Hsettled Hview].
  split; [exact (f_equal completeWeatherData Hsettled)|].
  split; [exact (f_equal lastFetchedCity Hsettled)|].
  split;
    [exact (f_equal (fun s => Dict.get "Berlin" (weatherCache s)) Hsettled)|].
  eapply eq_trans; [exact (Hview eq_refl) | vm_compute; reflexivity].
Defined.

Lemma network_request_exactly_when_witness :
  snd (fetchWeatherForecast sampleBrowser "Hamburg" 2000 offline 2500
                            berlinFetched) = ["Hamburg"].
Proof.
  assert (Hlast : lastFetchedCity berlinFetched <> Some "Hamburg")
    by (vm_compute; discriminate).
  assert (Hstale : noFreshPayload "Hamburg" 2000 berlinFetched)
    by (intros cached Hget; vm_compute in Hget; discriminate).
  exact (proj2 (proj1 (network_request_exactly_when sampleBrowser "Hamburg"
                         2000 offline 2500 berlinFetched))
               (conj eq_refl (conj Hlast Hstale))).
Defined.

Lemma cache_hit_keeps_error_witness :
  view (fst (fetchWeatherForecast sampleBrowser "Berlin" 5000 offline 5500
                                  kielFailed))
  = ErrorView "Failed to fetch".
Proof.
  assert (Hlast : lastFetchedCity kielFailed <> Some "Berlin")
    by (vm_compute; discriminate).
  assert (Hget : Dict.get "Berlin" (weatherCache kielFailed)
                 = Some (mkCached 1000 (JObject marchPayload)))
    by (vm_compute; reflexivity).
  assert (Hloading : isLoading kielFailed = false)
    by (vm_compute; reflexivity).
  assert (Herror : error kielFailed = Some "Failed to fetch")
    by (vm_compute; reflexivity).
  exact (proj2 (cache_hit_keeps_error sampleBrowser "Berlin" 5000 offline
                  5500 kielFailed 1000 None marchEntries berlin
                  "Deutschland" eq_refl Hlast Hget eq_refl eq_refl)
               "Failed to fetch" Hloading Herror eq_refl).
Defined.

Lemma request_after_cache_hit_is_ignored_witness :
  let shown :=
    fst (fetchWeatherForecast sampleBrowser "Berlin" 5000 offline 5500
                              hamburgFetched) in
  fetchWeatherForecast sampleBrowser "Hamburg" 6000 marchResponse 6500 shown
  = (shown, [])
  /\ locationInfoData shown = Some (mkLocationInfo "Berlin" "Deutschland").
Proof.
  assert (Hother : "Hamburg" <> "Berlin") by discriminate.
  assert (Hlast : lastFetchedCity hamburgFetched = Some "Hamburg")
    by (vm_compute; reflexivity).
  assert (Hget : Dict.get "Berlin" (weatherCache hamburgFetched)
                 = Some (mkCached 1000 (JObject marchPayload)))
    by (vm_compute; reflexivity).
  destruct (request_after_cache_hit_is_ignored sampleBrowser "Berlin"
              "Hamburg" 5000 offline 5500 hamburgFetched 1000 None
              marchEntries berlin "Deutschland" 6000 marchResponse 6500
              eq_refl Hlast Hother Hget eq_refl eq_refl)
    as [Hignored [_ Hlocation]].
  split; [exact Hignored | exact Hlocation].
Defined.

Lemma rejected_region_code_witness :
  let body := JObject (mkPayload None (Some marchEntries) (Some nullIsland)) in
  fetchWeatherForecast sampleBrowser "Null Island" 0 (Resolved true body)
                       1000 initialState
  = (mkState None [] [] false (Some "Invalid argument")
             (Some "Null Island") [("Null Island", mkCached 1000 body)],
     ["Null Island"]).
Proof.
  assert (Hlast : lastFetchedCity initialState <> Some "Null Island")
    by discriminate.
  assert (Hstale : noFreshPayload "Null Island" 0 initialState)
    by (intros cached Hget; discriminate Hget).
  exact (proj1 (rejected_region_code sampleBrowser "Null Island" None
                  marchEntries nullIsland "Invalid argument" eq_refl
                  eq_refl)
               0 1000 initialState Hlast Hstale).
Defined.

Lemma cached_cities_were_requested_witness :
  In "Berlin" (Dict.keys (weatherCache initialState))
  \/ In "Berlin" (snd (run sampleBrowser twoRequests initialState)).
Proof.
  assert (Hin : In "Berlin"
                   (Dict.keys
                      (weatherCache
                         (fst (run sampleBrowser twoRequests initialState)))))
    by (vm_compute; left; reflexivity).
  exact (cached_cities_were_requested sampleBrowser twoRequests initialState
           "Berlin" Hin).
Defined.

Lemma sweep_evicts_regardless_of_age_witness :
  Dict.get "Kiel" (weatherCache (cleanupCache crowded)) = None.
Proof.
  assert (Hkeys : NoDup (Dict.keys (weatherCache crowded))).
  { repeat (constructor; [simpl; intuition discriminate|]). constructor. }
  assert (Hnewer : NoDup fiveNewest).
  { repeat (constructor; [simpl; intuition discriminate|]). constructor. }
  assert (Hlater : forall entry,
             In entry fiveNewest ->
             In entry (weatherCache crowded)
             /\ timestamp (mkCached 6000 shapeless) < timestamp (snd entry)).
  { intros entry Hentry. vm_compute in Hentry.
    repeat (destruct Hentry as [<-|Hentry];
            [split; [vm_compute; tauto | reflexivity]|]).
    contradiction. }
  exact (proj1 (sweep_evicts_regardless_of_age sampleBrowser crowded "Kiel"
                  (mkCached 6000 shapeless) fiveNewest 0 offline 0
                  Hkeys eq_refl eq_refl Hnewer eq_refl Hlater)).
Defined.

Lemma unavailable_coordinate_click_witness :
  let st' := click toFixed3 v8Destructure
                   (mkViewClickEvent (Some equatorPoint))
                   (GeoResolved oceanBody) munich in
  locationLatitude st' = Some "n.V."
  /\ locationLongitude st' = Some "n.V."
  /\ warnings st' = []
  /\ cityName st' = Some "n.V.".
Proof.
  exact (unavailable_coordinate_click toFixed3 v8Destructure equatorPoint
           (GeoResolved oceanBody) munich eq_refl eq_refl).
Defined.

Lemma click_same_point_again_witness :
  click toFixed3 v8Destructure (mkViewClickEvent (Some berlinPoint))
        (GeoRejected (ThrownError "Failed to fetch"))
        (click toFixed3 v8Destructure (mkViewClickEvent (Some berlinPoint))
               (GeoResolved berlinBody) munich)
  = mkResolver (Some "52.520") (Some "13.405") (Some "Berlin") [].
Proof.
  rewrite (click_same_point_again toFixed3 v8Destructure berlinPoint
             (GeoResolved berlinBody)
             (GeoRejected (ThrownError "Failed to fetch")) munich eq_refl).
  vm_compute. reflexivity.
Defined.

Lemma sentinel_names_are_requested_witness :
  snd (watchEffect sampleBrowser
         (Some (getCityName "52.520" "13.405"
                  (GeoRejected (ThrownError "Failed to fetch"))))
         0 offline 500 initialState)
  = ["error fetching city name"].
Proof.
  assert (Hlast : lastFetchedCity initialState
                  <> Some (getCityName "52.520" "13.405"
                             (GeoRejected (ThrownError "Failed to fetch"))))
    by discriminate.
  assert (Hstale : noFreshPayload
                     (getCityName "52.520" "13.405"
                        (GeoRejected (ThrownError "Failed to fetch")))
                     0 initialState)
    by (intros cached Hget; discriminate Hget).
  exact (sentinel_names_are_requested sampleBrowser "52.520" "13.405"
           (GeoRejected (ThrownError "Failed to fetch")) 0 offline 500
           initialState Hlast Hstale).
Defined.

Lemma run_wellFormed_witness : wellFormed hamburgFetched.
Proof.
  assert (Hfresh : wellFormed initialState)
    by (split; [constructor | intros bucket entry []]).
  exact (run_wellFormed sampleBrowser twoRequests initialState Hfresh).
Defined.
